(** * tmux-mcp: the command-dispatch shim, embedded and verified

    The repository holds two versions of one MCP server:
    - [src/index.ts], six tmux tools (module [Core] below);
    - a longer version with three more tools (module [Full] below).

    Every handler translates the fields of a call into one shell command
    line, runs it with [execAsync] and formats a text reply.  The embedding
    keeps the three effects the handlers have: raising an exception, running
    a subprocess, reading the clock. *)

From Stdlib Require Import String Ascii List ZArith Lia Bool.
From Stdlib Require Import DecimalString.
Import ListNotations.
Open Scope string_scope.

(** ** JavaScript values

    The arguments of a call arrive as parsed JSON and are used through
    [args as any], so a field may hold any JSON value. *)

(** A JSON number, kept as the two things this program can observe of it:
    its truthiness ([ToBoolean]) and its rendering in a template literal
    ([Number::toString]).  No handler does arithmetic on a field. *)
Record number := { number_truthy : bool; number_text : string }.

#[warnings="-register-all"]
Inductive JValue : Type :=
| JUndefined
| JNull
| JBool (b : bool)
| JNum (n : number)
| JStr (s : string)
| JArr (items : list JValue)
| JObj (props : list (string * JValue)).

(** An object is the list of its own enumerable properties, in the order
    [Object.entries] yields them; a lookup takes the first binding. *)
Definition JObject := list (string * JValue).

Fixpoint own_property (o : JObject) (k : string) : option JValue :=
  match o with
  | [] => None
  | (k', v) :: rest => if (k' =? k)%string then Some v else own_property rest k
  end.

Definition has_own (o : JObject) (k : string) : bool :=
  match own_property o k with Some _ => true | None => false end.

(** [o.k] on an object parsed from JSON: none of the field names the
    handlers read exists on [Object.prototype], so a missing own property
    reads as [undefined]. *)
Definition Get (o : JObject) (k : string) : JValue :=
  match own_property o k with Some v => v | None => JUndefined end.

(** Thrown values.  Every throw site of the program throws an instance of
    [Error]: [new Error(..)], the [TypeError]s of the engine, and the
    rejection of [execAsync]. *)
Inductive ErrorClass := ClassError | ClassTypeError.

Inductive Thrown := ErrorInstance (cls : ErrorClass) (message : string).

Definition message_of (e : Thrown) : string :=
  match e with ErrorInstance _ m => m end.

Inductive Completion (A : Type) : Type :=
| Normal (a : A)
| Throw (e : Thrown).
Arguments Normal {A} a.
Arguments Throw {A} e.

Definition dquote : string := String "034" "".
Definition squote : string := String "039" "".
Definition newline : string := String "010" "".

Definition TypeError {A} (m : string) : Completion A :=
  Throw (ErrorInstance ClassTypeError m).

(** [Array.prototype.join]: [undefined] and [null] elements render as the
    empty string, the others through [ToString]; the first exception
    raised by an element is the result. *)
Definition join_with (to_s : JValue -> Completion string) (sep : string)
  : list JValue -> Completion string :=
  fix go (l : list JValue) : Completion string :=
    match l with
    | [] => Normal ""
    | x :: rest =>
        match (match x with
               | JUndefined | JNull => Normal ""
               | _ => to_s x
               end) with
        | Throw e => Throw e
        | Normal s =>
            match rest with
            | [] => Normal s
            | _ :: _ =>
                match go rest with
                | Throw e => Throw e
                | Normal r => Normal (s ++ sep ++ r)
                end
            end
        end
    end.

(** [ToString], as a template literal applies it.  An ordinary object
    inherits [Object.prototype.toString] unless it has an own property
    [toString]; a JSON value is never callable, so with such a property
    [OrdinaryToPrimitive] finds no usable method and throws. *)
Fixpoint ToString (v : JValue) : Completion string :=
  match v with
  | JUndefined => Normal "undefined"
  | JNull => Normal "null"
  | JBool true => Normal "true"
  | JBool false => Normal "false"
  | JNum n => Normal (number_text n)
  | JStr s => Normal s
  | JArr items => join_with ToString "," items
  | JObj props =>
      if has_own props "toString"
      then TypeError "Cannot convert object to primitive value"
      else Normal "[object Object]"
  end.

Definition ToBoolean (v : JValue) : bool :=
  match v with
  | JUndefined | JNull => false
  | JBool b => b
  | JNum n => number_truthy n
  | JStr s => negb (s =? "")%string
  | JArr _ | JObj _ => true
  end.

(** [v === 'lit'] *)
Definition strict_eq_string (v : JValue) (lit : string) : bool :=
  match v with JStr s => (s =? lit)%string | _ => false end.

(** [v !== false] *)
Definition strict_neq_false (v : JValue) : bool :=
  match v with JBool false => false | _ => true end.

Definition index_text (n : nat) : string :=
  NilEmpty.string_of_uint (Nat.to_uint n).

Fixpoint indexed {A} (i : nat) (l : list A) : list (string * A) :=
  match l with
  | [] => []
  | x :: rest => (index_text i, x) :: indexed (S i) rest
  end.

Fixpoint chars (s : string) : list JValue :=
  match s with
  | EmptyString => []
  | String c rest => JStr (String c "") :: chars rest
  end.

(** [Object.entries] *)
Definition ObjectEntries (v : JValue) : Completion (list (string * JValue)) :=
  match v with
  | JUndefined | JNull => TypeError "Cannot convert undefined or null to object"
  | JBool _ | JNum _ => Normal []
  | JStr s => Normal (indexed 0 (chars s))
  | JArr items => Normal (indexed 0 items)
  | JObj props => Normal props
  end.

(** ** The world and the handler monad *)

(** How a subprocess ends: [promisify(exec)] resolves with the captured
    output on exit status 0 and rejects with an [Error] otherwise. *)
Inductive ExecOutcome :=
| Exited (stdout stderr : string)
| Failed (message : string).

Record World := {
  shell : string -> ExecOutcome;   (* what each command line does *)
  clock : Z                        (* time value of [new Date()], ms *)
}.

(** A computation reads the world, appends the command lines it executes to
    the trace, and completes normally or abruptly. *)
Definition M (A : Type) : Type :=
  World -> list string -> Completion A * list string.

Definition ret {A} (a : A) : M A := fun _ tr => (Normal a, tr).

Definition bind {A B} (m : M A) (k : A -> M B) : M B :=
  fun w tr =>
    match m w tr with
    | (Normal a, tr') => k a w tr'
    | (Throw e, tr') => (Throw e, tr')
    end.

Definition throw {A} (e : Thrown) : M A := fun _ tr => (Throw e, tr).

Definition lift {A} (c : Completion A) : M A := fun _ tr => (c, tr).

Definition try_catch {A} (body : M A) (handler : Thrown -> M A) : M A :=
  fun w tr =>
    match body w tr with
    | (Normal a, tr') => (Normal a, tr')
    | (Throw e, tr') => handler e w tr'
    end.

Notation "x <- m ;; k" := (bind m (fun x => k))
  (at level 61, m at next level, right associativity).

Record ExecResult := { stdout : string; stderr : string }.

Definition execAsync (cmd : string) : M ExecResult :=
  fun w tr =>
    (match shell w cmd with
     | Exited out err => Normal {| stdout := out; stderr := err |}
     | Failed m => Throw (ErrorInstance ClassError m)
     end, (tr ++ [cmd])%list).

Definition new_Error {A} (m : string) : M A :=
  throw (ErrorInstance ClassError m).

(** [args.k] where [args] is the [arguments] member of the request, which
    the protocol lets a caller omit. *)
Definition prop (args : option JObject) (k : string) : M JValue :=
  match args with
  | Some o => ret (Get o k)
  | None =>
      throw (ErrorInstance ClassTypeError
               ("Cannot read properties of undefined (reading '" ++ k ++ "')"))
  end.

(** [`${v}`] *)
Definition str (v : JValue) : M string := lift (ToString v).

Record ContentBlock := { type : string; text : string }.
Record CallResult := { content : list ContentBlock }.

Definition text_result (t : string) : CallResult :=
  {| content := [ {| type := "text"; text := t |} ] |}.

(** [request.params] of a tool call; the protocol types [name] as a string
    and lets the caller omit [arguments]. *)
Record Request := { params_name : string; params_arguments : option JObject }.

Definition run {A} (m : M A) (w : World) : Completion A * list string :=
  m w [].

(** ** Strings: the operations of [String.prototype] the program calls *)

(** [s.startsWith(p)] *)
Fixpoint starts_with (p s : string) : bool :=
  match p with
  | EmptyString => true
  | String a p' =>
      match s with
      | EmptyString => false
      | String b s' => Ascii.eqb a b && starts_with p' s'
      end
  end.

(** [s.slice(0, n)] *)
Definition slice0 (n : nat) (s : string) : string := substring 0 n s.

(** [s.replace(c, d)] with a string pattern: the first occurrence only. *)
Fixpoint replace_first (c d : ascii) (s : string) : string :=
  match s with
  | EmptyString => EmptyString
  | String x rest =>
      if Ascii.eqb x c then String d rest else String x (replace_first c d rest)
  end.

(** [s.replace(/c/g, d)]: every occurrence. *)
Fixpoint replace_all (c d : ascii) (s : string) : string :=
  match s with
  | EmptyString => EmptyString
  | String x rest =>
      String (if Ascii.eqb x c then d else x) (replace_all c d rest)
  end.

(** ** Dates: [new Date().toISOString()]

    Time values are milliseconds since the epoch, UTC; the definitions are
    those of ECMAScript (Day, DayFromYear, MonthFromTime, ...).  The year
    of a day number is computed in closed form over the 400-year cycle;
    [YearFromTime_spec] below shows it is the year ECMAScript defines. *)

Open Scope Z_scope.

Definition msPerDay : Z := 86400000.

Definition Day (t : Z) : Z := t / msPerDay.

Definition DaysInYear (y : Z) : Z :=
  if negb (y mod 4 =? 0) then 365
  else if negb (y mod 100 =? 0) then 366
  else if negb (y mod 400 =? 0) then 365
  else 366.

Definition DayFromYear (y : Z) : Z :=
  365 * (y - 1970) + (y - 1969) / 4 - (y - 1901) / 100 + (y - 1601) / 400.

Definition year_of_day (d : Z) : Z :=
  let z := d + 719468 in
  let era := z / 146097 in
  let doe := z mod 146097 in
  let yoe := (doe - doe / 1460 + doe / 36524 - doe / 146096) / 365 in
  let doy := doe - (365 * yoe + yoe / 4 - yoe / 100) in
  yoe + era * 400 + (if doy <? 306 then 0 else 1).

Definition YearFromTime (t : Z) : Z := year_of_day (Day t).

Definition InLeapYear (t : Z) : Z :=
  if DaysInYear (YearFromTime t) =? 366 then 1 else 0.

Definition DayWithinYear (t : Z) : Z := Day t - DayFromYear (YearFromTime t).

Definition MonthFromTime (t : Z) : Z :=
  let d := DayWithinYear t in
  let leap := InLeapYear t in
  if d <? 31 then 0
  else if d <? 59 + leap then 1
  else if d <? 90 + leap then 2
  else if d <? 120 + leap then 3
  else if d <? 151 + leap then 4
  else if d <? 181 + leap then 5
  else if d <? 212 + leap then 6
  else if d <? 243 + leap then 7
  else if d <? 273 + leap then 8
  else if d <? 304 + leap then 9
  else if d <? 334 + leap then 10
  else 11.

Definition DateFromTime (t : Z) : Z :=
  let d := DayWithinYear t in
  let leap := InLeapYear t in
  match MonthFromTime t with
  | 0 => d + 1
  | 1 => d - 30
  | 2 => d - 58 - leap
  | 3 => d - 89 - leap
  | 4 => d - 119 - leap
  | 5 => d - 150 - leap
  | 6 => d - 180 - leap
  | 7 => d - 211 - leap
  | 8 => d - 242 - leap
  | 9 => d - 272 - leap
  | 10 => d - 303 - leap
  | _ => d - 333 - leap
  end.

Definition HourFromTime (t : Z) : Z := (t / 3600000) mod 24.
Definition MinFromTime (t : Z) : Z := (t / 60000) mod 60.
Definition SecFromTime (t : Z) : Z := (t / 1000) mod 60.
Definition msFromTime (t : Z) : Z := t mod 1000.

Definition digit_char (d : Z) : ascii :=
  nth (Z.to_nat (d mod 10))
      ["0"; "1"; "2"; "3"; "4"; "5"; "6"; "7"; "8"; "9"]%char "0"%char.

(** The [width] low decimal digits of [n], most significant first. *)
Fixpoint fixed_decimal (width : nat) (n : Z) : string :=
  match width with
  | O => EmptyString
  | S w => (fixed_decimal w (n / 10) ++ String (digit_char n) EmptyString)%string
  end.

(** The year of the Date Time String Format: four digits for 0..9999, else
    a sign and six digits. *)
Definition iso_year (y : Z) : string :=
  if (0 <=? y) && (y <=? 9999) then fixed_decimal 4 y
  else ((if (y <? 0)%Z then "-" else "+") ++ fixed_decimal 6 (Z.abs y))%string.

(** [Date.prototype.toISOString] of the time value [t]:
    YYYY-MM-DDTHH:mm:ss.sssZ *)
Definition toISOString (t : Z) : string :=
  (iso_year (YearFromTime t) ++ "-" ++ fixed_decimal 2 (MonthFromTime t + 1)
   ++ "-" ++ fixed_decimal 2 (DateFromTime t)
   ++ "T" ++ fixed_decimal 2 (HourFromTime t)
   ++ ":" ++ fixed_decimal 2 (MinFromTime t)
   ++ ":" ++ fixed_decimal 2 (SecFromTime t)
   ++ "." ++ fixed_decimal 3 (msFromTime t) ++ "Z")%string.

Close Scope Z_scope.

(** [new Date()] *)
Definition new_Date : M Z := fun w tr => (Normal (clock w), tr).

(** [new Date().toISOString().slice(0, 19).replace('T', '_')
      .replace(/:/g, '-') + '.md'] for the clock reading [t]. *)
Definition timestamp_name (t : Z) : string :=
  replace_all ":" "-" (replace_first "T" "_" (slice0 19 (toISOString t)))
  ++ ".md".

(** ** Tool descriptors (the reply to a discovery request), without the
    human-readable descriptions. *)

Inductive JsonType := TString | TBoolean | TArray | TObject.

Record PropertySchema := {
  prop_name : string;
  prop_type : JsonType;
  prop_enum : list string;
  prop_default : option JValue
}.

Record Tool := {
  tool_name : string;
  properties : list PropertySchema;
  required : list string
}.

Definition plain (n : string) (t : JsonType) : PropertySchema :=
  {| prop_name := n; prop_type := t; prop_enum := []; prop_default := None |}.

(** ** Statements shared by the handlers *)

(** [if (v) { cmd += ` flag "${v}"` }] *)
Definition append_quoted (cmd flag : string) (v : JValue) : M string :=
  if ToBoolean v
  then s <- str v ;; ret (cmd ++ flag ++ dquote ++ s ++ dquote)
  else ret cmd.

(** [for (const [key, value] of entries) { cmd += ` --env ${key}=${value}` }] *)
Fixpoint append_env (cmd : string) (entries : list (string * JValue)) : M string :=
  match entries with
  | [] => ret cmd
  | (key, value) :: rest =>
      s <- str value ;;
      append_env (cmd ++ " --env " ++ key ++ "=" ++ s) rest
  end.

(** [v.join(' ')]: only an array has a callable [join]. *)
Definition call_join (v : JValue) (sep : string) : M string :=
  match v with
  | JArr items => lift (join_with ToString sep items)
  | _ => lift (TypeError "args.args.join is not a function")
  end.

(** ** [src/index.ts]: the server with six tools *)
Module Core.

(** ListTools handler, lines 34-145. *)
Definition tools : list Tool :=
  [ {| tool_name := "tmux_split_window";
       properties :=
         [ {| prop_name := "direction"; prop_type := TString;
              prop_enum := ["horizontal"; "vertical"]; prop_default := None |};
           plain "command" TString; plain "directory" TString ];
       required := ["direction"] |};
    {| tool_name := "tmux_new_window";
       properties := [ plain "name" TString; plain "command" TString;
                       plain "directory" TString ];
       required := [] |};
    {| tool_name := "tmux_list_sessions"; properties := []; required := [] |};
    {| tool_name := "tmux_list_windows"; properties := []; required := [] |};
    {| tool_name := "tmux_send_keys";
       properties :=
         [ plain "keys" TString; plain "pane" TString;
           {| prop_name := "enter"; prop_type := TBoolean; prop_enum := [];
              prop_default := Some (JBool true) |} ];
       required := ["keys"] |};
    {| tool_name := "tmux_open_nvim";
       properties :=
         [ plain "file" TString; plain "directory" TString;
           {| prop_name := "split"; prop_type := TString;
              prop_enum := ["horizontal"; "vertical"];
              prop_default := Some (JStr "horizontal") |} ];
       required := [] |} ].

(** lines 180-206 *)
Definition splitWindow (args : option JObject) : M CallResult :=
  direction <- prop args "direction" ;;
  let splitFlag := if strict_eq_string direction "horizontal" then "-h" else "-v" in
  let cmd := "tmux split-window " ++ splitFlag in
  directory <- prop args "directory" ;;
  cmd <- append_quoted cmd " -c " directory ;;
  command <- prop args "command" ;;
  cmd <- append_quoted cmd " " command ;;
  _ <- execAsync cmd ;;
  d <- str direction ;;
  ran <- (if ToBoolean command
          then c <- str command ;; ret (" and ran: " ++ c)
          else ret "") ;;
  ret (text_result ("Split window " ++ d ++ "ly" ++ ran)).

(** lines 208-237 *)
Definition newWindow (args : option JObject) : M CallResult :=
  let cmd := "tmux new-window" in
  name <- prop args "name" ;;
  cmd <- append_quoted cmd " -n " name ;;
  directory <- prop args "directory" ;;
  cmd <- append_quoted cmd " -c " directory ;;
  command <- prop args "command" ;;
  cmd <- append_quoted cmd " " command ;;
  _ <- execAsync cmd ;;
  named <- (if ToBoolean name
            then n <- str name ;; ret (" " ++ squote ++ n ++ squote)
            else ret "") ;;
  ret (text_result ("Created new window" ++ named)).

(** lines 239-250 *)
Definition listSessions : M CallResult :=
  r <- execAsync
         ("tmux list-sessions -F " ++ dquote
          ++ "#{session_name}: #{session_windows} windows" ++ dquote) ;;
  ret (text_result ("Tmux sessions:" ++ newline ++ stdout r)).

(** lines 252-263 *)
Definition listWindows : M CallResult :=
  r <- execAsync
         ("tmux list-windows -F " ++ dquote
          ++ "#{window_index}: #{window_name} (#{window_panes} panes)" ++ dquote) ;;
  ret (text_result ("Current session windows:" ++ newline ++ stdout r)).

(** lines 265-292 *)
Definition sendKeys (args : option JObject) : M CallResult :=
  let cmd := "tmux send-keys" in
  pane <- prop args "pane" ;;
  cmd <- append_quoted cmd " -t " pane ;;
  keys <- prop args "keys" ;;
  k <- str keys ;;
  let cmd := cmd ++ " " ++ dquote ++ k ++ dquote in
  enter <- prop args "enter" ;;
  let cmd := if strict_neq_false enter then cmd ++ " Enter" else cmd in
  _ <- execAsync cmd ;;
  ret (text_result ("Sent keys: " ++ k
                    ++ (if strict_neq_false enter then " (with Enter)" else ""))).

(** lines 294-319 *)
Definition openNvim (args : option JObject) : M CallResult :=
  split <- prop args "split" ;;
  let splitFlag := if strict_eq_string split "vertical" then "-v" else "-h" in
  let cmd := "tmux split-window " ++ splitFlag in
  directory <- prop args "directory" ;;
  cmd <- append_quoted cmd " -c " directory ;;
  file <- prop args "file" ;;
  nvimCmd <- (if ToBoolean file
              then f <- str file ;; ret ("nvim " ++ dquote ++ f ++ dquote)
              else ret "nvim") ;;
  let cmd := cmd ++ " " ++ dquote ++ nvimCmd ++ dquote in
  _ <- execAsync cmd ;;
  opened <- (if ToBoolean file
             then f <- str file ;; ret (" with file: " ++ f)
             else ret "") ;;
  ret (text_result ("Opened nvim" ++ opened ++ " in new pane")).

(** CallTool handler, lines 147-177.  Every value thrown inside the [try]
    is an instance of [Error], so the [catch] takes its [message]. *)
Definition handle (request : Request) : M CallResult :=
  let name := params_name request in
  let args := params_arguments request in
  try_catch
    (if name =? "tmux_split_window" then splitWindow args
     else if name =? "tmux_new_window" then newWindow args
     else if name =? "tmux_list_sessions" then listSessions
     else if name =? "tmux_list_windows" then listWindows
     else if name =? "tmux_send_keys" then sendKeys args
     else if name =? "tmux_open_nvim" then openNvim args
     else new_Error ("Unknown tool: " ++ name))
    (fun error => ret (text_result ("Error: " ++ message_of error))).

End Core.

(** ** The longer version of the server: nine tools *)
Module Full.

Definition split_schema : PropertySchema :=
  {| prop_name := "split"; prop_type := TString;
     prop_enum := ["horizontal"; "vertical"];
     prop_default := Some (JStr "horizontal") |}.

(** ListTools handler, lines 29-208. *)
Definition tools : list Tool :=
  [ {| tool_name := "tmux_split_window";
       properties :=
         [ {| prop_name := "direction"; prop_type := TString;
              prop_enum := ["horizontal"; "vertical"]; prop_default := None |};
           plain "command" TString; plain "directory" TString ];
       required := ["direction"] |};
    {| tool_name := "tmux_new_window";
       properties := [ plain "name" TString; plain "command" TString;
                       plain "directory" TString ];
       required := [] |};
    {| tool_name := "tmux_list_sessions"; properties := []; required := [] |};
    {| tool_name := "tmux_list_windows"; properties := []; required := [] |};
    {| tool_name := "tmux_send_keys";
       properties :=
         [ plain "keys" TString; plain "pane" TString;
           {| prop_name := "enter"; prop_type := TBoolean; prop_enum := [];
              prop_default := Some (JBool true) |} ];
       required := ["keys"] |};
    {| tool_name := "tmux_open_nvim";
       properties := [ plain "file" TString; plain "directory" TString;
                       split_schema ];
       required := [] |};
    {| tool_name := "tmux_open_obsidian_note";
       properties := [ plain "vault" TString; plain "note_name" TString;
                       split_schema ];
       required := [] |};
    {| tool_name := "claude_mcp_add";
       properties :=
         [ plain "name" TString; plain "command" TString;
           plain "args" TArray; plain "env" TObject;
           {| prop_name := "transport"; prop_type := TString;
              prop_enum := ["stdio"; "sse"; "http"];
              prop_default := Some (JStr "stdio") |};
           plain "url" TString ];
       required := ["name"] |};
    {| tool_name := "claude_mcp_list"; properties := []; required := [] |} ].

(** lines 249-275 *)
Definition splitWindow (args : option JObject) : M CallResult :=
  direction <- prop args "direction" ;;
  let splitFlag := if strict_eq_string direction "horizontal" then "-h" else "-v" in
  let cmd := "tmux split-window " ++ splitFlag in
  directory <- prop args "directory" ;;
  cmd <- append_quoted cmd " -c " directory ;;
  command <- prop args "command" ;;
  cmd <- append_quoted cmd " " command ;;
  _ <- execAsync cmd ;;
  d <- str direction ;;
  ran <- (if ToBoolean command
          then c <- str command ;; ret (" and ran: " ++ c)
          else ret "") ;;
  ret (text_result ("Split window " ++ d ++ "ly" ++ ran)).

(** lines 277-306 *)
Definition newWindow (args : option JObject) : M CallResult :=
  let cmd := "tmux new-window" in
  name <- prop args "name" ;;
  cmd <- append_quoted cmd " -n " name ;;
  directory <- prop args "directory" ;;
  cmd <- append_quoted cmd " -c " directory ;;
  command <- prop args "command" ;;
  cmd <- append_quoted cmd " " command ;;
  _ <- execAsync cmd ;;
  named <- (if ToBoolean name
            then n <- str name ;; ret (" " ++ squote ++ n ++ squote)
            else ret "") ;;
  ret (text_result ("Created new window" ++ named)).

(** lines 308-319 *)
Definition listSessions : M CallResult :=
  r <- execAsync
         ("tmux list-sessions -F " ++ dquote
          ++ "#{session_name}: #{session_windows} windows" ++ dquote) ;;
  ret (text_result ("Tmux sessions:" ++ newline ++ stdout r)).

(** lines 321-332 *)
Definition listWindows : M CallResult :=
  r <- execAsync
         ("tmux list-windows -F " ++ dquote
          ++ "#{window_index}: #{window_name} (#{window_panes} panes)" ++ dquote) ;;
  ret (text_result ("Current session windows:" ++ newline ++ stdout r)).

(** lines 334-361 *)
Definition sendKeys (args : option JObject) : M CallResult :=
  let cmd := "tmux send-keys" in
  pane <- prop args "pane" ;;
  cmd <- append_quoted cmd " -t " pane ;;
  keys <- prop args "keys" ;;
  k <- str keys ;;
  let cmd := cmd ++ " " ++ dquote ++ k ++ dquote in
  enter <- prop args "enter" ;;
  let cmd := if strict_neq_false enter then cmd ++ " Enter" else cmd in
  _ <- execAsync cmd ;;
  ret (text_result ("Sent keys: " ++ k
                    ++ (if strict_neq_false enter then " (with Enter)" else ""))).

(** lines 363-388 *)
Definition openNvim (args : option JObject) : M CallResult :=
  split <- prop args "split" ;;
  let splitFlag := if strict_eq_string split "vertical" then "-v" else "-h" in
  let cmd := "tmux split-window " ++ splitFlag in
  directory <- prop args "directory" ;;
  cmd <- append_quoted cmd " -c " directory ;;
  file <- prop args "file" ;;
  nvimCmd <- (if ToBoolean file
              then f <- str file ;; ret ("nvim " ++ dquote ++ f ++ dquote)
              else ret "nvim") ;;
  let cmd := cmd ++ " " ++ dquote ++ nvimCmd ++ dquote in
  _ <- execAsync cmd ;;
  opened <- (if ToBoolean file
             then f <- str file ;; ret (" with file: " ++ f)
             else ret "") ;;
  ret (text_result ("Opened nvim" ++ opened ++ " in new pane")).

Definition obsidianBase : string :=
  "/Users/ldraney/Library/Mobile Documents/iCloud~md~obsidian/Documents".

(** lines 390-426 *)
Definition openObsidianNote (args : option JObject) : M CallResult :=
  vault <- prop args "vault" ;;
  if negb (ToBoolean vault) then
    r <- execAsync ("ls " ++ dquote ++ obsidianBase ++ dquote) ;;
    ret (text_result ("Available vaults:" ++ newline ++ stdout r))
  else
    v <- str vault ;;
    let vaultPath := obsidianBase ++ "/" ++ v in
    note_name <- prop args "note_name" ;;
    noteName <- (if ToBoolean note_name
                 then str note_name
                 else t <- new_Date ;; ret (timestamp_name t)) ;;
    let filePath := vaultPath ++ "/" ++ noteName in
    split <- prop args "split" ;;
    let splitFlag := if strict_eq_string split "vertical" then "-v" else "-h" in
    let cmd := "tmux split-window " ++ splitFlag ++ " -c " ++ dquote ++ vaultPath
               ++ dquote ++ " " ++ dquote ++ "nvim " ++ squote ++ filePath
               ++ squote ++ dquote in
    _ <- execAsync cmd ;;
    ret (text_result ("Opened new Obsidian note " ++ dquote ++ noteName ++ dquote
                      ++ " in vault " ++ dquote ++ v ++ dquote)).

(** lines 428-475 *)
Definition claudeMcpAdd (args : option JObject) : M CallResult :=
  let cmd := "claude mcp add" in
  transport <- prop args "transport" ;;
  cmd <- (if ToBoolean transport && negb (strict_eq_string transport "stdio")
          then t <- str transport ;; ret (cmd ++ " --transport " ++ t)
          else ret cmd) ;;
  env <- prop args "env" ;;
  cmd <- (if ToBoolean env
          then entries <- lift (ObjectEntries env) ;; append_env cmd entries
          else ret cmd) ;;
  name <- prop args "name" ;;
  n <- str name ;;
  let cmd := cmd ++ " " ++ n in
  cmd <- (if strict_eq_string transport "sse" || strict_eq_string transport "http"
          then
            url <- prop args "url" ;;
            if negb (ToBoolean url)
            then new_Error "URL is required for sse/http transport"
            else u <- str url ;; ret (cmd ++ " " ++ u)
          else
            command <- prop args "command" ;;
            if negb (ToBoolean command)
            then new_Error "Command is required for stdio transport"
            else
              c <- str command ;;
              let cmd := cmd ++ " " ++ c in
              rest <- prop args "args" ;;
              if ToBoolean rest
              then j <- call_join rest " " ;; ret (cmd ++ " " ++ j)
              else ret cmd) ;;
  r <- execAsync cmd ;;
  ret (text_result ("Added MCP server " ++ dquote ++ n ++ dquote ++ newline
                    ++ stdout r
                    ++ (if negb (stderr r =? "")
                        then newline ++ "Errors: " ++ stderr r
                        else ""))).

(** lines 477-488 *)
Definition claudeMcpList : M CallResult :=
  r <- execAsync "claude mcp list" ;;
  ret (text_result ("Configured MCP servers:" ++ newline ++ stdout r)).

(** CallTool handler, lines 210-246. *)
Definition handle (request : Request) : M CallResult :=
  let name := params_name request in
  let args := params_arguments request in
  try_catch
    (if name =? "tmux_split_window" then splitWindow args
     else if name =? "tmux_new_window" then newWindow args
     else if name =? "tmux_list_sessions" then listSessions
     else if name =? "tmux_list_windows" then listWindows
     else if name =? "tmux_send_keys" then sendKeys args
     else if name =? "tmux_open_nvim" then openNvim args
     else if name =? "tmux_open_obsidian_note" then openObsidianNote args
     else if name =? "claude_mcp_add" then claudeMcpAdd args
     else if name =? "claude_mcp_list" then claudeMcpList
     else new_Error ("Unknown tool: " ++ name))
    (fun error => ret (text_result ("Error: " ++ message_of error))).

End Full.

Definition call (w : World) (handler : Request -> M CallResult)
  (name : string) (args : option JObject) : Completion CallResult * list string :=
  run (handler {| params_name := name; params_arguments := args |}) w.

Definition quiet : World :=
  {| shell := fun _ => Exited "" ""; clock := 0 |}.

(** * Vocabulary of the statements *)


(** The reply the dispatcher makes of a finished subprocess when the handler
    passes its standard output through under a heading. *)
Definition passthrough (heading : string) (o : ExecOutcome) : CallResult :=
  match o with
  | Exited out _ => text_result (heading ++ newline ++ out)
  | Failed m => text_result ("Error: " ++ m)
  end.

(** A computation that executes nothing. *)
Definition silent {A} (m : M A) : Prop :=
  forall w tr, snd (m w tr) = tr.

(** A computation that executes at most one command line. *)
Definition at_most_one {A} (m : M A) : Prop :=
  forall w tr, snd (m w tr) = tr \/ exists c, snd (m w tr) = (tr ++ [c])%list.

(** ** Argument shapes: the parameter types the handlers declare *)

Definition is_string (v : JValue) : bool :=
  match v with JStr _ => true | _ => false end.

Definition is_boolean (v : JValue) : bool :=
  match v with JBool _ => true | _ => false end.

Definition is_one_of (choices : list string) (v : JValue) : bool :=
  match v with JStr s => existsb (String.eqb s) choices | _ => false end.

Definition is_string_array (v : JValue) : bool :=
  match v with JArr items => forallb is_string items | _ => false end.

Definition is_string_record (v : JValue) : bool :=
  match v with
  | JObj props => forallb (fun kv => is_string (snd kv)) props
  | _ => false
  end.

(** An optional member [k?: T]. *)
Definition optional (p : JValue -> bool) (v : JValue) : bool :=
  match v with JUndefined => true | _ => p v end.

Definition split_choice : JValue -> bool :=
  optional (is_one_of ["horizontal"; "vertical"]).

(** [well_typed name o]: the mapping [o] has the type of the parameter
    [args] of the handler of tool [name] (the long version). *)
Definition well_typed (name : string) (o : JObject) : bool :=
  if name =? "tmux_split_window" then
    is_one_of ["horizontal"; "vertical"] (Get o "direction")
    && optional is_string (Get o "command")
    && optional is_string (Get o "directory")
  else if name =? "tmux_new_window" then
    optional is_string (Get o "name")
    && optional is_string (Get o "command")
    && optional is_string (Get o "directory")
  else if name =? "tmux_list_sessions" then true
  else if name =? "tmux_list_windows" then true
  else if name =? "tmux_send_keys" then
    is_string (Get o "keys")
    && optional is_string (Get o "pane")
    && optional is_boolean (Get o "enter")
  else if name =? "tmux_open_nvim" then
    optional is_string (Get o "file")
    && optional is_string (Get o "directory")
    && split_choice (Get o "split")
  else if name =? "tmux_open_obsidian_note" then
    optional is_string (Get o "vault")
    && optional is_string (Get o "note_name")
    && split_choice (Get o "split")
  else if name =? "claude_mcp_add" then
    is_string (Get o "name")
    && optional is_string (Get o "command")
    && optional is_string_array (Get o "args")
    && optional is_string_record (Get o "env")
    && optional (is_one_of ["stdio"; "sse"; "http"]) (Get o "transport")
    && optional is_string (Get o "url")
  else if name =? "claude_mcp_list" then true
  else false.

(** Whether a register-remote-tool call carries the field its transport
    needs: a non-empty [url] for sse and http, a non-empty [command]
    otherwise. *)
Definition needs_url (o : JObject) : bool :=
  strict_eq_string (Get o "transport") "sse"
  || strict_eq_string (Get o "transport") "http".

Definition has_required_endpoint (o : JObject) : bool :=
  if needs_url o then ToBoolean (Get o "url") else ToBoolean (Get o "command").

(** A substring test, for statements about what a command line holds. *)
Fixpoint contains (sub s : string) : bool :=
  starts_with sub s
  || match s with
     | EmptyString => false
     | String _ rest => contains sub rest
     end.


(** The message of the error that names the missing field. *)
Definition missing_endpoint_message (o : JObject) : string :=
  if needs_url o then "URL is required for sse/http transport"
  else "Command is required for stdio transport".

Fixpoint reverse (s : string) : string :=
  match s with
  | EmptyString => EmptyString
  | String c rest => reverse rest ++ String c EmptyString
  end.

(** [ends_with suffix s]: the last characters of [s] are [suffix]. *)
Definition ends_with (suffix s : string) : bool :=
  starts_with (reverse suffix) (reverse s).

(** Every command of the trace exited normally in world [w]. *)
Definition succeeded (w : World) (executed : list string) : Prop :=
  forall c, In c executed -> exists out err, shell w c = Exited out err.

(** ** Timestamp patterns *)

Definition is_digit (c : ascii) : bool :=
  (48 <=? nat_of_ascii c)%nat && (nat_of_ascii c <=? 57)%nat.

(** A pattern such as YYYY-MM-DD: a decimal digit, or the character itself. *)
Inductive PatternChar := Digit | Lit (c : ascii).

Fixpoint matches (p : list PatternChar) (s : string) : bool :=
  match p, s with
  | [], EmptyString => true
  | Digit :: p', String c s' => is_digit c && matches p' s'
  | Lit l :: p', String c s' => Ascii.eqb l c && matches p' s'
  | _, _ => false
  end.

(** YYYY-MM-DD_HH-MM-SS *)
Definition timestamp_pattern : list PatternChar :=
  [Digit; Digit; Digit; Digit; Lit "-"; Digit; Digit; Lit "-"; Digit; Digit;
   Lit "_"; Digit; Digit; Lit "-"; Digit; Digit; Lit "-"; Digit; Digit]%char.

(** The timestamp YYYY-MM-DD_HH-MM-SS of a time value, written from its
    calendar fields (UTC). *)
Definition stamp_of (t : Z) : string :=
  fixed_decimal 4 (YearFromTime t) ++ "-"
  ++ fixed_decimal 2 (MonthFromTime t + 1) ++ "-"
  ++ fixed_decimal 2 (DateFromTime t) ++ "_"
  ++ fixed_decimal 2 (HourFromTime t) ++ "-"
  ++ fixed_decimal 2 (MinFromTime t) ++ "-"
  ++ fixed_decimal 2 (SecFromTime t).

(** ** The shape every handler has: a builder, one execution, a reply *)

(** An error that is not the dispatcher's own "Unknown tool". *)
Definition benign (e : Thrown) : Prop :=
  starts_with "Unknown tool: " (message_of e) = false.

(** A reply text that does not announce an error. *)
Definition success_text (t : string) : Prop :=
  starts_with "Error: " t = false.

(** The statements before the executor: they execute nothing, and what
    they throw is benign. *)
Definition prelude {A} (m : M A) : Prop :=
  forall w tr,
    snd (m w tr) = tr /\ forall e, fst (m w tr) = Throw e -> benign e.

(** The statements after the executor: they execute nothing, and what
    they return is one text block that announces no error. *)
Definition epilogue (m : M CallResult) : Prop :=
  forall w tr,
    snd (m w tr) = tr /\
    forall r, fst (m w tr) = Normal r ->
      exists t, r = text_result t /\ success_text t.

(** A handler either stops in its prelude, or executes one command line,
    throws the error of a failed subprocess and, after a subprocess that
    exited normally, runs an epilogue. *)
Definition shaped (m : M CallResult) : Prop :=
  forall w tr,
    (snd (m w tr) = tr /\ exists e, fst (m w tr) = Throw e /\ benign e) \/
    (exists c,
       snd (m w tr) = (tr ++ [c])%list /\
       match shell w c with
       | Failed msg => fst (m w tr) = Throw (ErrorInstance ClassError msg)
       | Exited _ _ =>
           forall r, fst (m w tr) = Normal r ->
             exists t, r = text_result t /\ success_text t
       end).

(** What a dispatched call of a declared tool comes to: one text block,
    which is an error raised before the executor and other than "Unknown
    tool", or the message of the failed subprocess, or, after a subprocess
    that exited normally, a success text or an error of the reply itself. *)
Definition handled (w : World) (res : Completion CallResult * list string)
  : Prop :=
  exists t,
    fst res = Normal (text_result t) /\
    ((snd res = [] /\
      exists msg, t = "Error: " ++ msg /\
                  starts_with "Unknown tool: " msg = false) \/
     (exists c msg,
        snd res = [c] /\ shell w c = Failed msg /\ t = "Error: " ++ msg) \/
     (exists c out err,
        snd res = [c] /\ shell w c = Exited out err /\
        (success_text t \/ exists msg, t = "Error: " ++ msg))).

(** ** Which fields a call depends on *)

(** The names of the properties the long version declares for a tool. *)
Definition declared_fields (name : string) : list string :=
  flat_map (fun t => if tool_name t =? name
                     then map prop_name (properties t) else [])
           Full.tools.

(** The fields a handler uses only under a truthiness test
    ([if (args.k)], [args.k ? .. : ..], [!args.k], [args.k || ..],
    [args.k && ..]) or, for the transport, compares with a non-empty
    literal. *)
Definition guarded_fields (name : string) : list string :=
  if name =? "tmux_split_window" then ["command"; "directory"]
  else if name =? "tmux_new_window" then ["name"; "command"; "directory"]
  else if name =? "tmux_send_keys" then ["pane"]
  else if name =? "tmux_open_nvim" then ["file"; "directory"]
  else if name =? "tmux_open_obsidian_note" then ["vault"; "note_name"]
  else if name =? "claude_mcp_add"
       then ["command"; "args"; "env"; "transport"; "url"]
  else [].

(** The command lines of the two other listings. *)
Definition list_windows_cmd : string :=
  "tmux list-windows -F " ++ dquote
  ++ "#{window_index}: #{window_name} (#{window_panes} panes)" ++ dquote.

Definition list_servers_cmd : string := "claude mcp list".

(** The tools whose handler reads its arguments. *)
Definition field_reading_tools : list string :=
  ["tmux_split_window"; "tmux_new_window"; "tmux_send_keys"; "tmux_open_nvim";
   "tmux_open_obsidian_note"; "claude_mcp_add"].

(** The tools only the long version has. *)
Definition added_tools : list string :=
  ["tmux_open_obsidian_note"; "claude_mcp_add"; "claude_mcp_list"].

(** [-t "<pane>"] when the pane is a non-empty string. *)
Definition pane_flag (pane : JValue) : string :=
  match pane with
  | JStr p => if (p =? "")%string then "" else " -t " ++ dquote ++ p ++ dquote
  | _ => ""
  end.

(** [flag "<text>"] when the field is a non-empty string. *)
Definition quoted_flag (flag : string) (v : JValue) : string :=
  match v with
  | JStr s => if (s =? "")%string then "" else flag ++ dquote ++ s ++ dquote
  | _ => ""
  end.

(** ** The layout of the register-remote-tool command *)

(** The [--env KEY=value] flags of an environment, in its order. *)
Definition env_flags (es : list (string * string)) : string :=
  fold_right (fun kv acc => " --env " ++ fst kv ++ "=" ++ snd kv ++ acc) "" es.

(** An environment object whose values are strings. *)
Definition string_entries (es : list (string * string)) : list (string * JValue) :=
  map (fun kv => (fst kv, JStr (snd kv))) es.

(** The reply of register-remote-tool to a finished subprocess. *)
Definition added_reply (n : string) (o : ExecOutcome) : CallResult :=
  match o with
  | Exited out err =>
      text_result ("Added MCP server " ++ dquote ++ n ++ dquote ++ newline
                   ++ out
                   ++ (if (err =? "")%string then ""
                       else newline ++ "Errors: " ++ err))
  | Failed m => text_result ("Error: " ++ m)
  end.

(** ** The characters of the default note name *)

Fixpoint all_chars (p : ascii -> bool) (s : string) : bool :=
  match s with
  | EmptyString => true
  | String c rest => p c && all_chars p rest
  end.

(** A decimal digit, or one of [-], [+], [_], [.], [m], [d]. *)
Definition name_char (c : ascii) : bool :=
  is_digit c
  || existsb (Ascii.eqb c) ["-"; "+"; "_"; "."; "m"; "d"]%char.

(** ** Reading the clock *)

(** A computation whose result does not depend on the clock. *)
Definition clock_free {A} (m : M A) : Prop :=
  forall sh c1 c2 tr,
    m {| shell := sh; clock := c1 |} tr = m {| shell := sh; clock := c2 |} tr.

(** The reply of open-note-in-vault to a finished subprocess. *)
Definition opened_note_reply (noteName vault : string) (o : ExecOutcome)
  : CallResult :=
  match o with
  | Exited _ _ =>
      text_result ("Opened new Obsidian note " ++ dquote ++ noteName ++ dquote
                   ++ " in vault " ++ dquote ++ vault ++ dquote)
  | Failed m => text_result ("Error: " ++ m)
  end.

(** * Properties *)

(** Known values of the date model. *)
Example iso_epoch : toISOString 0 = "1970-01-01T00:00:00.000Z".
Proof. reflexivity. Qed.
Example iso_2023 : toISOString 1700000000123 = "2023-11-14T22:13:20.123Z".
Proof. reflexivity. Qed.
Example iso_leap_day : toISOString 951825599999 = "2000-02-29T11:59:59.999Z".
Proof. reflexivity. Qed.
Example iso_before_epoch : toISOString (-1) = "1969-12-31T23:59:59.999Z".
Proof. reflexivity. Qed.
Example iso_year_10000 : toISOString 253402300800000 = "+010000-01-01T00:00:00.000Z".
Proof. reflexivity. Qed.
Example iso_min : toISOString (-8640000000000000) = "-271821-04-20T00:00:00.000Z".
Proof. reflexivity. Qed.
Example iso_max : toISOString 8640000000000000 = "+275760-09-13T00:00:00.000Z".
Proof. reflexivity. Qed.
Example iso_bc : toISOString (-62198755200000) = "-000001-01-01T00:00:00.000Z".
Proof. reflexivity. Qed.
Example name_2023 : timestamp_name 1700000000123 = "2023-11-14_22-13-20.md".
Proof. reflexivity. Qed.

Lemma eqb_not_in (name s : string) (l : list string) :
  ~ In name l -> In s l -> (name =? s) = false.
Proof.
  intros Hn Hs. apply String.eqb_neq. intros ->. exact (Hn Hs).
Qed.

Ltac not_declared H :=
  repeat match goal with
  | |- context [(?n =? ?s)%string] =>
      rewrite (eqb_not_in n s _ H) by (simpl; tauto)
  end.

(** Symbolic execution: unfold the dispatcher down to the chosen handler,
    then run the monad without touching the strings. *)
Ltac dispatch :=
  unfold call, run, Core.handle, Full.handle;
  cbv beta iota zeta delta [params_name params_arguments];
  cbn [String.eqb Ascii.eqb Bool.eqb].

Ltac exec_steps :=
  cbv beta iota zeta delta
    [bind ret throw lift prop str try_catch execAsync new_Error new_Date
     append_quoted call_join TypeError fst snd stdout stderr negb andb orb].




(** ** The two listing tools and equivalence of the versions *)



(** C9. On each of the six tools both versions declare, and for every
    arguments value and every world, the two dispatchers execute the same
    command lines and return the same reply. *)
Theorem versions_agree_on_shared_tools (w : World) (name : string)
    (args : option JObject) :
  In name (map tool_name Core.tools) ->
  call w Core.handle name args = call w Full.handle name args.
Proof.
  simpl. intros [H | [H | [H | [H | [H | [H | []]]]]]]; subst name; reflexivity.
Qed.

Lemma versions_agree_on_shared_tools_witness :
  call quiet Core.handle "tmux_send_keys" (Some [("keys", JStr "ls")])
  = call quiet Full.handle "tmux_send_keys" (Some [("keys", JStr "ls")]).
Proof.
  apply versions_agree_on_shared_tools. simpl. tauto.
Defined.

(** ** Counting subprocess executions *)

Section TraceRules.
Context {A B : Type}.

Lemma silent_ret (a : A) : silent (ret a).
Proof. intros w tr; reflexivity. Qed.

Lemma silent_throw (e : Thrown) : silent (@throw A e).
Proof. intros w tr; reflexivity. Qed.

Lemma silent_new_Error (m : string) : silent (@new_Error A m).
Proof. intros w tr; reflexivity. Qed.

Lemma silent_lift (c : Completion A) : silent (lift c).
Proof. intros w tr; reflexivity. Qed.

Lemma silent_bind (m : M A) (k : A -> M B) :
  silent m -> (forall a, silent (k a)) -> silent (bind m k).
Proof.
  intros Hm Hk w tr. unfold bind. specialize (Hm w tr).
  destruct (m w tr) as [[a | e] tr']; simpl in *; subst; auto.
  apply Hk.
Qed.

Lemma silent_at_most_one (m : M A) : silent m -> at_most_one m.
Proof. intros H w tr. left. apply H. Qed.

Lemma at_most_one_bind_silent (m : M A) (k : A -> M B) :
  silent m -> (forall a, at_most_one (k a)) -> at_most_one (bind m k).
Proof.
  intros Hm Hk w tr. unfold bind. specialize (Hm w tr).
  destruct (m w tr) as [[a | e] tr']; simpl in *; subst; auto.
  apply Hk.
Qed.

Lemma at_most_one_bind_exec (c : string) (k : ExecResult -> M B) :
  (forall r, silent (k r)) -> at_most_one (bind (execAsync c) k).
Proof.
  intros Hk w tr. right. exists c. unfold bind, execAsync.
  destruct (shell w c); simpl; auto. apply Hk.
Qed.

Lemma at_most_one_try_catch (body : M A) (h : Thrown -> M A) :
  at_most_one body -> (forall e, silent (h e)) -> at_most_one (try_catch body h).
Proof.
  intros Hb Hh w tr. unfold try_catch. specialize (Hb w tr).
  destruct (body w tr) as [[a | e] tr']; simpl in *; auto.
  rewrite (Hh e w tr'). auto.
Qed.
End TraceRules.

Lemma silent_prop (args : option JObject) (k : string) : silent (prop args k).
Proof. destruct args; intros w tr; reflexivity. Qed.

Lemma silent_str (v : JValue) : silent (str v).
Proof. intros w tr; reflexivity. Qed.

Lemma silent_new_Date : silent new_Date.
Proof. intros w tr; reflexivity. Qed.

Lemma silent_append_quoted (cmd flag : string) (v : JValue) :
  silent (append_quoted cmd flag v).
Proof.
  unfold append_quoted. destruct (ToBoolean v).
  - apply silent_bind; [apply silent_str | intro; apply silent_ret].
  - apply silent_ret.
Qed.

Lemma silent_append_env (entries : list (string * JValue)) (cmd : string) :
  silent (append_env cmd entries).
Proof.
  revert cmd. induction entries as [| [key value] rest IH]; intro cmd; simpl.
  - apply silent_ret.
  - apply silent_bind; [apply silent_str | intro; apply IH].
Qed.

Lemma silent_call_join (v : JValue) (sep : string) : silent (call_join v sep).
Proof. destruct v; apply silent_lift. Qed.

Ltac silent_tac :=
  cbv beta zeta;
  repeat first
    [ apply silent_ret | apply silent_throw | apply silent_new_Error
    | apply silent_lift | apply silent_prop | apply silent_str
    | apply silent_new_Date | apply silent_append_quoted
    | apply silent_append_env | apply silent_call_join
    | apply silent_bind; [| intro; cbv beta zeta]
    | match goal with
      | |- silent (if ?b then _ else _) => destruct b
      end ].

Ltac at_most_one_tac :=
  cbv beta zeta;
  repeat first
    [ apply at_most_one_bind_exec; intro; solve [silent_tac]
    | apply at_most_one_bind_silent; [solve [silent_tac] | intro; cbv beta zeta]
    | match goal with
      | |- at_most_one (if ?b then _ else _) => destruct b
      end
    | apply silent_at_most_one; solve [silent_tac] ].

Lemma at_most_one_Full_handle (request : Request) :
  at_most_one (Full.handle request).
Proof.
  unfold Full.handle. apply at_most_one_try_catch; [| intro; apply silent_ret].
  cbv zeta.
  unfold Full.splitWindow, Full.newWindow, Full.listSessions, Full.listWindows,
    Full.sendKeys, Full.openNvim, Full.openObsidianNote, Full.claudeMcpAdd,
    Full.claudeMcpList.
  at_most_one_tac.
Qed.

(** ** Well-typed arguments never throw in a builder *)

Lemma append_env_strings (props : list (string * JValue)) :
  forallb (fun kv => is_string (snd kv)) props = true ->
  forall cmd w tr, exists cmd', append_env cmd props w tr = (Normal cmd', tr).
Proof.
  induction props as [| [key value] rest IH]; simpl; intros H cmd w tr.
  - eexists; reflexivity.
  - apply andb_prop in H as [Hv Hrest].
    destruct value; try discriminate. exec_steps. simpl. apply IH; assumption.
Qed.

Lemma join_strings (sep : string) (items : list JValue) :
  forallb is_string items = true ->
  exists s, join_with ToString sep items = Normal s.
Proof.
  induction items as [| x rest IH]; simpl; intro H.
  - eauto.
  - apply andb_prop in H as [Hx Hrest]. destruct x; try discriminate.
    destruct (IH Hrest) as [r Hr].
    destruct rest as [| y rest']; [simpl; eauto | rewrite Hr; simpl; eauto].
Qed.

(** Case analysis on what is left open after symbolic execution: the
    conversions of the fields and the outcome of the subprocess. *)
Ltac case_step :=
  match goal with
  | |- context [match ToString ?v with _ => _ end] => destruct (ToString v) eqn:?
  | |- context [match ObjectEntries ?v with _ => _ end] =>
      destruct (ObjectEntries v) eqn:?
  | |- context [match append_env ?c ?es ?w ?tr with _ => _ end] =>
      let E := fresh "E" in
      let S := fresh "S" in
      destruct (append_env c es w tr) as [[? | ?] ?] eqn:E;
      pose proof (silent_append_env es c w tr) as S;
      rewrite E in S; simpl in S; subst
  | |- context [if ToBoolean ?v then _ else _] => destruct (ToBoolean v) eqn:?
  | |- context [if strict_eq_string ?v ?s then _ else _] =>
      destruct (strict_eq_string v s) eqn:?
  | |- context [if strict_neq_false ?v then _ else _] =>
      destruct (strict_neq_false v) eqn:?
  | |- context [match shell ?w ?c with _ => _ end] => destruct (shell w c) eqn:?
  | |- context [match join_with ToString ?s ?l with _ => _ end] =>
      destruct (join_with ToString s l) eqn:?
  | |- context [if (?a =? ?b)%string then _ else _] =>
      destruct (a =? b)%string eqn:?
  | |- context [if ?b then _ else _] => destruct b eqn:?
  end.

Ltac cases := repeat (case_step; cbv beta iota zeta; try discriminate).

(** Case analysis on the shape of every field a typing hypothesis names. *)
Ltac by_shape o :=
  repeat match goal with
  | H : context [Get o ?k] |- _ =>
      destruct (Get o k); cbn in H; try discriminate H
  end.

Ltac split_typing :=
  repeat match goal with
  | H : (_ && _) = true |- _ => apply andb_prop in H; destruct H
  end.

Ltac unfold_handlers :=
  unfold Full.splitWindow, Full.newWindow, Full.listSessions, Full.listWindows,
    Full.sendKeys, Full.openNvim, Full.openObsidianNote, Full.claudeMcpAdd,
    Full.claudeMcpList, Core.splitWindow, Core.newWindow, Core.listSessions,
    Core.listWindows, Core.sendKeys, Core.openNvim.

Lemma absent_is_undefined (o : JObject) (k : string) :
  own_property o k = None -> Get o k = JUndefined.
Proof. unfold Get. intros ->. reflexivity. Qed.

(** Without the field its transport needs, register-remote-tool stops
    before the executor. *)
Lemma add_without_endpoint (w : World) (o : JObject) :
  has_required_endpoint o = false ->
  exists msg,
    call w Full.handle "claude_mcp_add" (Some o)
    = (Normal (text_result ("Error: " ++ msg)), []).
Proof.
  unfold has_required_endpoint, needs_url. intro H.
  dispatch. unfold Full.claudeMcpAdd. exec_steps.
  revert H. cbv beta iota zeta delta [orb].
  cases; intro H; try discriminate; eexists; reflexivity.
Qed.

Lemma add_without_endpoint_message (w : World) (o : JObject) :
  has_required_endpoint o = false ->
  is_string (Get o "name") = true ->
  optional is_string_record (Get o "env") = true ->
  optional (is_one_of ["stdio"; "sse"; "http"]) (Get o "transport") = true ->
  call w Full.handle "claude_mcp_add" (Some o)
  = (Normal (text_result ("Error: " ++ missing_endpoint_message o)), []).
Proof.
  unfold has_required_endpoint, missing_endpoint_message, needs_url, optional.
  intros R Hn He Ht.
  dispatch. unfold Full.claudeMcpAdd. exec_steps.
  revert R.
  destruct (Get o "name"); try discriminate Hn.
  destruct (Get o "env"); try discriminate He;
    destruct (Get o "transport"); try discriminate Ht;
    cbn [ToString ToBoolean strict_eq_string ObjectEntries is_string_record
         is_one_of existsb] in *;
    cbv beta iota zeta delta [negb andb orb];
    cases; intros; try discriminate; try reflexivity.
  all: repeat match goal with
    | E : append_env ?c ?p ?w ?tr = (Throw _, _),
      F : forallb _ ?p = true |- _ =>
        destruct (append_env_strings p F c w tr) as [? G];
        rewrite G in E; discriminate E
    end.
Qed.

(** A declared tool called with arguments of the declared type reaches the
    executor, once. *)
Lemma typed_call_executes_once (w : World) (name : string) (o : JObject) :
  well_typed name o = true ->
  (name = "claude_mcp_add" -> has_required_endpoint o = true) ->
  exists c, snd (call w Full.handle name (Some o)) = [c].
Proof.
  unfold well_typed. intros H R.
  repeat match type of H with
  | (if (name =? ?s) then _ else _) = true =>
      destruct (String.eqb_spec name s) as [-> | ?]
  end; try discriminate H.
  all: dispatch; unfold_handlers; exec_steps.
  all: unfold split_choice, optional in H; split_typing.
  1-7: clear R; by_shape o;
    cbn [ToString ToBoolean strict_eq_string strict_neq_false]; cases;
    cbn [app]; eauto.
  2: cases; cbn [app]; eauto.
  specialize (R eq_refl). unfold has_required_endpoint, needs_url in R.
  by_shape o.
  all: cbn [ToString ToBoolean strict_eq_string ObjectEntries] in *.
  all: revert R; cbv beta iota zeta delta [negb andb orb].
  all: cases; intros; try discriminate; cbn [app]; eauto.
  all: repeat match goal with
    | E : append_env ?c ?p ?w ?tr = (Throw _, _),
      F : forallb _ ?p = true |- _ =>
        destruct (append_env_strings p F c w tr) as [? G];
        rewrite G in E; discriminate E
    | E : join_with ToString ?s ?l = Throw _,
      F : forallb is_string ?l = true |- _ =>
        destruct (join_strings s l F) as [? G];
        rewrite G in E; discriminate E
    end.
Qed.


(** ** Claims on the number of executions *)

(** C2, as stated, fails: a call with an unknown tool name, and a
    register-remote-tool call without its command, execute nothing.  Nor
    does a call whose field cannot be rendered in the command line: an
    object with an own [toString] property makes the template literal throw
    a [TypeError] before the executor is reached. *)
Lemma one_execution_per_call_counterexample :
  length (snd (call quiet Full.handle "tmux_kill_server" (Some []))) <> 1 /\
  length (snd (call quiet Full.handle "claude_mcp_add"
                 (Some [("name", JStr "files")]))) <> 1 /\
  call quiet Full.handle "tmux_send_keys"
    (Some [("keys", JObj [("toString", JStr "x")])])
  = (Normal (text_result "Error: Cannot convert object to primitive value"), []).
Proof. repeat split; vm_compute; discriminate. Qed.

(** C2, amended.  Every dispatched call executes at most one subprocess.
    It executes exactly one when the tool is declared and the arguments
    have the type the handler declares for them (for register-remote-tool,
    with the non-empty command or url its transport needs); it executes
    none when the tool name is unknown, and none when a
    register-remote-tool call lacks that command or url. *)
Theorem executions_per_call (w : World) (name : string) (args : option JObject) :
  length (snd (call w Full.handle name args)) <= 1 /\
  (~ In name (map tool_name Full.tools) ->
     snd (call w Full.handle name args) = []) /\
  (forall o, args = Some o -> name = "claude_mcp_add" ->
     has_required_endpoint o = false ->
     snd (call w Full.handle name args) = []) /\
  (forall o, args = Some o -> well_typed name o = true ->
     (name = "claude_mcp_add" -> has_required_endpoint o = true) ->
     length (snd (call w Full.handle name args)) = 1).
Proof.
  repeat split.
  - unfold call, run.
    destruct (at_most_one_Full_handle
                {| params_name := name; params_arguments := args |} w [])
      as [-> | [c ->]]; simpl; lia.
  - intro H. unfold call, run, Full.handle; simpl params_name.
    unfold try_catch. not_declared H. reflexivity.
  - intros o -> -> H. destruct (add_without_endpoint w o H) as [msg ->].
    reflexivity.
  - intros o -> H R. destruct (typed_call_executes_once w name o H R) as [c ->].
    reflexivity.
Qed.

Lemma executions_per_call_witness :
  snd (call quiet Full.handle "tmux_kill_server" None) = [] /\
  snd (call quiet Full.handle "claude_mcp_add"
         (Some [("name", JStr "files"); ("transport", JStr "sse")])) = [] /\
  length (snd (call quiet Full.handle "tmux_send_keys"
                 (Some [("keys", JStr "ls")]))) = 1.
Proof.
  split; [| split].
  - apply (executions_per_call quiet "tmux_kill_server" None).
    simpl. intuition discriminate.
  - apply (executions_per_call quiet "claude_mcp_add"
             (Some [("name", JStr "files"); ("transport", JStr "sse")]))
      with (o := [("name", JStr "files"); ("transport", JStr "sse")]);
      reflexivity.
  - apply (executions_per_call quiet "tmux_send_keys"
             (Some [("keys", JStr "ls")]))
      with (o := [("keys", JStr "ls")]);
      [reflexivity | reflexivity | discriminate].
Defined.

(** C5. A register-remote-tool call with transport sse or http and no url
    field, and one with the default transport (omitted or stdio) and no
    command field, return an error reply and execute nothing.  The reply
    names the missing field whenever the name is a string and the
    environment, if given, maps to strings. *)
Theorem register_without_endpoint_fails (w : World) (o : JObject) :
  (needs_url o = true /\ own_property o "url" = None) \/
  ((own_property o "transport" = None \/ Get o "transport" = JStr "stdio") /\
   own_property o "command" = None) ->
  (exists msg,
     call w Full.handle "claude_mcp_add" (Some o)
     = (Normal (text_result ("Error: " ++ msg)), [])) /\
  (is_string (Get o "name") = true ->
   optional is_string_record (Get o "env") = true ->
   call w Full.handle "claude_mcp_add" (Some o)
   = (Normal (text_result
                ("Error: " ++ (if needs_url o
                               then "URL is required for sse/http transport"
                               else "Command is required for stdio transport"))),
      [])).
Proof.
  intro H.
  assert (R : has_required_endpoint o = false).
  { unfold has_required_endpoint.
    destruct H as [[T U] | [T C]].
    - rewrite T, (absent_is_undefined _ _ U). reflexivity.
    - assert (N : needs_url o = false).
      { unfold needs_url.
        destruct T as [T | T];
          [rewrite (absent_is_undefined _ _ T) | rewrite T]; reflexivity. }
      rewrite N, (absent_is_undefined _ _ C). reflexivity. }
  split.
  - apply add_without_endpoint; assumption.
  - intros Hn He. apply add_without_endpoint_message; auto.
    unfold needs_url in H.
    destruct H as [[T U] | [[T | T] C]].
    + destruct (Get o "transport"); try discriminate T. simpl in *.
      apply orb_prop in T as [T | T]; apply String.eqb_eq in T; subst;
        reflexivity.
    + rewrite (absent_is_undefined _ _ T). reflexivity.
    + rewrite T. reflexivity.
Qed.

Lemma register_without_endpoint_fails_witness :
  call quiet Full.handle "claude_mcp_add"
    (Some [("name", JStr "files"); ("transport", JStr "sse")])
  = (Normal (text_result "Error: URL is required for sse/http transport"), [])
  /\
  call quiet Full.handle "claude_mcp_add" (Some [("name", JStr "files")])
  = (Normal (text_result "Error: Command is required for stdio transport"), []).
Proof.
  split.
  - apply (register_without_endpoint_fails quiet
             [("name", JStr "files"); ("transport", JStr "sse")]);
      [left; split; reflexivity | reflexivity | reflexivity].
  - apply (register_without_endpoint_fails quiet [("name", JStr "files")]);
      [right; split; [left |]; reflexivity | reflexivity | reflexivity].
Defined.



(** ** Claims on the command builders *)

Lemma append_assoc (a b c : string) : (a ++ b) ++ c = a ++ b ++ c.
Proof. induction a as [| x a IH]; simpl; [| rewrite IH]; reflexivity. Qed.

Lemma append_empty_r (a : string) : a ++ "" = a.
Proof. induction a as [| x a IH]; simpl; [| rewrite IH]; reflexivity. Qed.

Lemma reverse_append (a b : string) : reverse (a ++ b) = reverse b ++ reverse a.
Proof.
  induction a as [| x a IH]; simpl.
  - rewrite append_empty_r. reflexivity.
  - rewrite IH, append_assoc. reflexivity.
Qed.

Lemma ends_with_Enter (s : string) : ends_with " Enter" (s ++ " Enter") = true.
Proof. unfold ends_with. rewrite reverse_append. reflexivity. Qed.

Lemma ends_with_Enter_quoted (s k : string) :
  ends_with " Enter" (s ++ " " ++ dquote ++ k ++ dquote) = false.
Proof. unfold ends_with. rewrite !reverse_append. reflexivity. Qed.

Ltac executed_cases :=
  cbn [app In];
  let Hin := fresh "Hin" in
  intro Hin; decompose [or] Hin; try contradiction; subst.

(** C3, as stated, fails: nothing validates the direction.  A direction
    outside the declared choices reaches the builder, and the command is
    built and executed. *)
Lemma split_pane_validation_counterexample :
  is_one_of ["horizontal"; "vertical"] (JStr "diagonal") = false /\
  call quiet Core.handle "tmux_split_window"
    (Some [("direction", JStr "diagonal")])
  = (Normal (text_result "Split window diagonally"), ["tmux split-window -v"]) /\
  call quiet Full.handle "tmux_split_window"
    (Some [("direction", JStr "diagonal")])
  = (Normal (text_result "Split window diagonally"), ["tmux split-window -v"]).
Proof. repeat split. Qed.

(** C3, amended.  In both versions, every command a split-pane call
    executes begins [tmux split-window -h] when the direction is the string
    [horizontal], and [tmux split-window -v] for every other direction:
    [vertical], any other string, a value of another type, or none.  No
    direction is rejected: when the directory and the command are strings
    or absent, the call executes exactly one such command. *)
Theorem split_pane_direction_flag (w : World) (o : JObject) (h : Request -> M CallResult) :
  h = Core.handle \/ h = Full.handle ->
  let executed := snd (call w h "tmux_split_window" (Some o)) in
  (Get o "direction" = JStr "horizontal" ->
     forall cmd, In cmd executed ->
       exists rest, cmd = "tmux split-window -h" ++ rest) /\
  (Get o "direction" <> JStr "horizontal" ->
     forall cmd, In cmd executed ->
       exists rest, cmd = "tmux split-window -v" ++ rest) /\
  (optional is_string (Get o "directory") = true ->
   optional is_string (Get o "command") = true ->
     exists cmd, executed = [cmd]).
Proof.
  intros Hh executed. subst executed.
  assert (F : Get o "direction" <> JStr "horizontal" ->
              strict_eq_string (Get o "direction") "horizontal" = false).
  { destruct (Get o "direction") as [| | | | s | |]; try reflexivity.
    intro N. simpl. apply String.eqb_neq. congruence. }
  repeat split.
  - intros D cmd. destruct Hh as [-> | ->]; dispatch; unfold_handlers;
      exec_steps; rewrite D; cbn [ToString strict_eq_string String.eqb Ascii.eqb Bool.eqb];
      cases; executed_cases; eexists; reflexivity.
  - intros D cmd. specialize (F D).
    destruct Hh as [-> | ->]; dispatch; unfold_handlers; exec_steps;
      rewrite F; cases; executed_cases; eexists; reflexivity.
  - unfold optional. intros Hd Hc.
    destruct Hh as [-> | ->]; dispatch; unfold_handlers; exec_steps;
      destruct (Get o "directory"); try discriminate Hd;
      destruct (Get o "command"); try discriminate Hc;
      cbn [ToString ToBoolean]; cases; cbn [app]; eauto.
Qed.

Lemma split_pane_direction_flag_witness :
  (exists rest, "tmux split-window -h -c " ++ dquote ++ "/tmp" ++ dquote
                = "tmux split-window -h" ++ rest) /\
  (exists rest, "tmux split-window -v" = "tmux split-window -v" ++ rest) /\
  (exists cmd, snd (call quiet Full.handle "tmux_split_window"
                      (Some [("direction", JStr "sideways")])) = [cmd]).
Proof.
  split; [| split].
  - apply (split_pane_direction_flag quiet
             [("direction", JStr "horizontal"); ("directory", JStr "/tmp")]
             Core.handle (or_introl eq_refl)).
    + reflexivity.
    + simpl. left. reflexivity.
  - apply (split_pane_direction_flag quiet [("direction", JStr "vertical")]
             Full.handle (or_intror eq_refl)).
    + discriminate.
    + simpl. left. reflexivity.
  - apply (split_pane_direction_flag quiet [("direction", JStr "sideways")]
             Full.handle (or_intror eq_refl)); reflexivity.
Defined.

(** C4.  In both versions, every command a send-keys call executes ends
    with the token [ Enter] unless the [enter] field is the boolean [false]:
    omitted ([undefined]) or [true], the token is appended; it is left out
    if and only if [enter] is [false].  With a string for [keys], and a
    string or nothing for [pane], the call does execute its command, which
    is [tmux send-keys], the optional [-t "<pane>"], the quoted keys, and
    the token. *)
Theorem send_keys_enter_default (w : World) (o : JObject)
    (h : Request -> M CallResult) :
  h = Core.handle \/ h = Full.handle ->
  let executed := snd (call w h "tmux_send_keys" (Some o)) in
  (own_property o "enter" = None \/ Get o "enter" = JBool true ->
     forall cmd, In cmd executed -> ends_with " Enter" cmd = true) /\
  (forall cmd, In cmd executed ->
     (ends_with " Enter" cmd = false <-> Get o "enter" = JBool false)) /\
  (forall keys, Get o "keys" = JStr keys ->
     optional is_string (Get o "pane") = true ->
     executed
     = [ "tmux send-keys"
         ++ (match Get o "pane" with
             | JStr pane =>
                 if (pane =? "")%string then ""
                 else " -t " ++ dquote ++ pane ++ dquote
             | _ => ""
             end)
         ++ " " ++ dquote ++ keys ++ dquote
         ++ (match Get o "enter" with JBool false => "" | _ => " Enter" end) ]).
Proof.
  intros Hh executed. subst executed.
  assert (B : forall cmd, In cmd (snd (call w h "tmux_send_keys" (Some o))) ->
            ends_with " Enter" cmd = strict_neq_false (Get o "enter")).
  { intro cmd.
    destruct Hh as [-> | ->]; dispatch; unfold_handlers; exec_steps;
      cases; executed_cases;
      first [ apply ends_with_Enter_quoted | apply ends_with_Enter ]. }
  assert (F : forall v, strict_neq_false v = false <-> v = JBool false).
  { intro v; split; [| intros ->; reflexivity].
    destruct v as [| | [|] | | | |]; simpl; congruence. }
  repeat split.
  - intros E cmd Hin. rewrite (B cmd Hin).
    destruct E as [E | E];
      [rewrite (absent_is_undefined _ _ E) | rewrite E]; reflexivity.
  - intro E. apply F. rewrite <- (B cmd H). exact E.
  - intro E. rewrite (B cmd H). apply F. exact E.
  - intros keys K P. unfold optional in P.
    destruct Hh as [-> | ->]; dispatch; unfold_handlers; exec_steps;
      rewrite K;
      destruct (Get o "pane") as [| | | | pane | |]; try discriminate P;
      cbn [ToString ToBoolean]; cbv beta iota zeta delta [negb];
      destruct (Get o "enter") as [| | [|] | | | |];
      cbn [strict_neq_false];
      cases; cbn [app]; rewrite ?append_assoc; reflexivity.
Qed.

Lemma send_keys_enter_default_witness :
  ends_with " Enter" ("tmux send-keys " ++ dquote ++ "ls" ++ dquote ++ " Enter")
  = true /\
  (ends_with " Enter" ("tmux send-keys " ++ dquote ++ "ls" ++ dquote) = false
   <-> JBool false = JBool false) /\
  snd (call quiet Core.handle "tmux_send_keys"
         (Some [("keys", JStr "ls"); ("pane", JStr "1")]))
  = ["tmux send-keys -t " ++ dquote ++ "1" ++ dquote ++ " " ++ dquote ++ "ls"
     ++ dquote ++ " Enter"].
Proof.
  split; [| split].
  - destruct (send_keys_enter_default quiet [("keys", JStr "ls")]
                Full.handle (or_intror eq_refl)) as [A _].
    apply A; [left; reflexivity | simpl; left; reflexivity].
  - destruct (send_keys_enter_default quiet
                [("keys", JStr "ls"); ("enter", JBool false)]
                Full.handle (or_intror eq_refl)) as [_ [B _]].
    apply B. simpl. left. reflexivity.
  - destruct (send_keys_enter_default quiet
                [("keys", JStr "ls"); ("pane", JStr "1")]
                Core.handle (or_introl eq_refl)) as [_ [_ C]].
    apply (C "ls"); reflexivity.
Defined.

(** ** The replies of the mutating tools *)

(** C10.  For split-pane, new-window, send-keys and open-editor, in both
    versions: two runs on the same arguments whose subprocesses exit
    normally return the same reply (and execute the same command), whatever
    the two subprocesses wrote to standard output and standard error. *)
Theorem mutating_reply_ignores_output (w1 w2 : World) (name : string)
    (args : option JObject) (h : Request -> M CallResult) :
  h = Core.handle \/ h = Full.handle ->
  In name ["tmux_split_window"; "tmux_new_window"; "tmux_send_keys";
           "tmux_open_nvim"] ->
  succeeded w1 (snd (call w1 h name args)) ->
  succeeded w2 (snd (call w2 h name args)) ->
  call w1 h name args = call w2 h name args.
Proof.
  intros Hh Hn.
  unfold succeeded.
  simpl in Hn. decompose [or] Hn; try contradiction; subst name;
    destruct Hh as [-> | ->]; destruct args as [o |];
    dispatch; unfold_handlers; exec_steps; try reflexivity;
    cases; cbn [app In]; intros S1 S2; try reflexivity;
    exfalso;
    repeat match goal with
    | E : shell ?w ?c = Failed _, S : forall c, _ -> exists _ _, shell ?w c = _ |- _ =>
        destruct (S c (or_introl eq_refl)) as [? [? ?]]; congruence
    end.
Qed.

Lemma mutating_reply_ignores_output_witness :
  call {| shell := fun _ => Exited "pane 1" ""; clock := 0 |} Full.handle
    "tmux_new_window" (Some [("name", JStr "logs")])
  = call {| shell := fun _ => Exited "" "warning"; clock := 7 |} Full.handle
      "tmux_new_window" (Some [("name", JStr "logs")]).
Proof.
  apply mutating_reply_ignores_output.
  - right. reflexivity.
  - simpl. tauto.
  - intros c _. simpl. eauto.
  - intros c _. simpl. eauto.
Defined.

(** ** The default note name *)

Lemma digit_char_cases (d : Z) :
  In (digit_char d) ["0"; "1"; "2"; "3"; "4"; "5"; "6"; "7"; "8"; "9"]%char.
Proof.
  unfold digit_char.
  assert (H : (Z.to_nat (d mod 10) < 10)%nat).
  { pose proof (Z.mod_pos_bound d 10 ltac:(lia)). lia. }
  generalize dependent (Z.to_nat (d mod 10)). intros k H.
  do 10 (destruct k as [| k]; [simpl; tauto |]); lia.
Qed.

Lemma digit_char_is_digit (d : Z) : is_digit (digit_char d) = true.
Proof.
  pose proof (digit_char_cases d) as H. simpl in H.
  decompose [or] H; try contradiction;
    match goal with E : _ = digit_char d |- _ => rewrite <- E end; reflexivity.
Qed.

Lemma digit_char_not (d : Z) (c : ascii) :
  is_digit c = false -> Ascii.eqb (digit_char d) c = false.
Proof.
  intro H. apply Ascii.eqb_neq. intro E. rewrite <- E in H.
  rewrite digit_char_is_digit in H. discriminate.
Qed.

Open Scope Z_scope.

Lemma DayFromYear_step (y : Z) : DayFromYear (y + 1) = DayFromYear y + DaysInYear y.
Proof.
  unfold DayFromYear, DaysInYear.
  destruct (Z.eqb_spec (y mod 4) 0), (Z.eqb_spec (y mod 100) 0),
    (Z.eqb_spec (y mod 400) 0); cbn [negb];
    Z.div_mod_to_equations; lia.
Qed.

(** [YearFromTime t] is the year ECMAScript defines: the one whose first
    day is the last not after the day of [t]. *)
Lemma YearFromTime_spec (t : Z) :
  DayFromYear (YearFromTime t) <= Day t < DayFromYear (YearFromTime t + 1).
Proof.
  unfold YearFromTime. generalize (Day t) as d. intro d.
  unfold DayFromYear, year_of_day. cbv zeta.
  match goal with
  | |- context [if ?c then 0 else 1] => destruct c eqn:E
  end; apply Z.ltb_lt in E || apply Z.ltb_ge in E;
    Z.div_mod_to_equations; lia.
Qed.

Lemma DayWithinYear_range (t : Z) :
  0 <= DayWithinYear t < 365 + InLeapYear t.
Proof.
  pose proof (YearFromTime_spec t) as H.
  rewrite DayFromYear_step in H.
  unfold DayWithinYear, InLeapYear.
  assert (D : DaysInYear (YearFromTime t) = 365 \/ DaysInYear (YearFromTime t) = 366).
  { unfold DaysInYear.
    destruct (negb _); [tauto |]. destruct (negb _); [tauto |].
    destruct (negb _); tauto. }
  destruct D as [D | D]; rewrite D in *; simpl; lia.
Qed.

Lemma InLeapYear_cases (t : Z) : InLeapYear t = 0 \/ InLeapYear t = 1.
Proof. unfold InLeapYear. destruct (_ =? _); tauto. Qed.

Lemma MonthFromTime_range (t : Z) : 0 <= MonthFromTime t <= 11.
Proof.
  unfold MonthFromTime. cbv zeta.
  repeat match goal with
  | |- context [if ?c then _ else _] => destruct c
  end; lia.
Qed.

Lemma DateFromTime_range (t : Z) : 1 <= DateFromTime t <= 31.
Proof.
  pose proof (DayWithinYear_range t) as R.
  pose proof (InLeapYear_cases t) as L.
  unfold DateFromTime, MonthFromTime. cbv zeta.
  repeat match goal with
  | |- context [if ?a <? ?b then _ else _] => destruct (Z.ltb_spec a b)
  end; lia.
Qed.

Lemma time_of_day_ranges (t : Z) :
  0 <= HourFromTime t <= 23 /\ 0 <= MinFromTime t <= 59 /\
  0 <= SecFromTime t <= 59.
Proof.
  unfold HourFromTime, MinFromTime, SecFromTime.
  pose proof (Z.mod_pos_bound (t / 3600000) 24 ltac:(lia)).
  pose proof (Z.mod_pos_bound (t / 60000) 60 ltac:(lia)).
  pose proof (Z.mod_pos_bound (t / 1000) 60 ltac:(lia)).
  lia.
Qed.

Close Scope Z_scope.

Lemma timestamp_name_four_digit_year (t : Z) :
  (0 <= YearFromTime t <= 9999)%Z ->
  timestamp_name t = stamp_of t ++ ".md" /\
  matches timestamp_pattern (stamp_of t) = true.
Proof.
  intro Y.
  assert (I : iso_year (YearFromTime t) = fixed_decimal 4 (YearFromTime t)).
  { unfold iso_year.
    destruct (Z.leb_spec 0 (YearFromTime t)), (Z.leb_spec (YearFromTime t) 9999);
      try lia; reflexivity. }
  unfold timestamp_name, toISOString, stamp_of. rewrite I.
  generalize (YearFromTime t) (MonthFromTime t + 1)%Z (DateFromTime t)
    (HourFromTime t) (MinFromTime t) (SecFromTime t) (msFromTime t).
  intros y mo d hh mi ss ms.
  cbn [fixed_decimal append slice0 substring].
  split.
  - cbn [replace_first].
    rewrite !(digit_char_not _ "T") by reflexivity.
    cbn [replace_first Ascii.eqb Bool.eqb replace_all append].
    rewrite !(digit_char_not _ ":") by reflexivity.
    reflexivity.
  - cbn [timestamp_pattern matches]. rewrite !digit_char_is_digit. reflexivity.
Qed.

(** C8, as stated, fails.  The derived name always carries the extension
    [.md], so it is not of the form YYYY-MM-DD_HH-MM-SS; and from the year
    10000 on the ISO string has a sign and six year digits, so that no
    prefix of the name has that form either. *)
Lemma default_note_name_counterexample :
  timestamp_name 1700000000123 = "2023-11-14_22-13-20.md" /\
  matches timestamp_pattern (timestamp_name 1700000000123) = false /\
  toISOString 253402300800000 = "+010000-01-01T00:00:00.000Z" /\
  timestamp_name 253402300800000 = "+010000-01-01_00-00.md" /\
  forallb (fun n => negb (matches timestamp_pattern
                            (slice0 n (timestamp_name 253402300800000))))
          (seq 0 40) = true /\
  snd (call {| shell := fun _ => Exited "" ""; clock := 253402300800000 |}
         Full.handle "tmux_open_obsidian_note" (Some [("vault", JStr "work")]))
  = ["tmux split-window -h -c " ++ dquote ++ Full.obsidianBase ++ "/work"
     ++ dquote ++ " " ++ dquote ++ "nvim " ++ squote ++ Full.obsidianBase
     ++ "/work/+010000-01-01_00-00.md" ++ squote ++ dquote].
Proof. repeat split. Qed.

(** C8, amended.  For an open-note-in-vault call with a vault and no
    note_name, whenever the UTC year of the current time is within
    0000..9999, the note filename used in the target path is the UTC
    timestamp formatted as YYYY-MM-DD_HH-MM-SS followed by the extension
    [.md]; the digits are those of the calendar fields of the time value,
    each within its range. *)
Theorem default_note_name_is_timestamp (w : World) (o : JObject) (vault : string) :
  Get o "vault" = JStr vault ->
  vault <> "" ->
  own_property o "note_name" = None ->
  (0 <= YearFromTime (clock w) <= 9999)%Z ->
  let t := clock w in
  let vaultPath := Full.obsidianBase ++ "/" ++ vault in
  let splitFlag :=
    if strict_eq_string (Get o "split") "vertical" then "-v" else "-h" in
  snd (call w Full.handle "tmux_open_obsidian_note" (Some o))
  = ["tmux split-window " ++ splitFlag ++ " -c " ++ dquote ++ vaultPath
     ++ dquote ++ " " ++ dquote ++ "nvim " ++ squote
     ++ (vaultPath ++ "/" ++ (stamp_of t ++ ".md")) ++ squote ++ dquote] /\
  timestamp_name t = stamp_of t ++ ".md" /\
  matches timestamp_pattern (stamp_of t) = true /\
  (1 <= MonthFromTime t + 1 <= 12 /\ 1 <= DateFromTime t <= 31 /\
   0 <= HourFromTime t <= 23 /\ 0 <= MinFromTime t <= 59 /\
   0 <= SecFromTime t <= 59)%Z.
Proof.
  intros V NE N Y t vaultPath splitFlag. subst t vaultPath splitFlag.
  destruct (timestamp_name_four_digit_year (clock w) Y) as [E P].
  split; [| split; [exact E | split; [exact P |]]].
  - apply String.eqb_neq in NE.
    dispatch. unfold_handlers. exec_steps.
    rewrite V, (absent_is_undefined _ _ N).
    cbn [ToString ToBoolean]. rewrite NE. cbv beta iota zeta delta [negb].
    rewrite E.
    destruct (strict_eq_string (Get o "split") "vertical"); cbv beta iota zeta;
      match goal with
      | |- context [shell w ?c] => destruct (shell w c)
      end; reflexivity.
  - pose proof (MonthFromTime_range (clock w)).
    pose proof (DateFromTime_range (clock w)).
    pose proof (time_of_day_ranges (clock w)).
    lia.
Qed.

Lemma default_note_name_is_timestamp_witness :
  let w := {| shell := fun _ => Exited "" ""; clock := 1700000000123 |} in
  snd (call w Full.handle "tmux_open_obsidian_note"
         (Some [("vault", JStr "work"); ("split", JStr "vertical")]))
  = ["tmux split-window -v -c " ++ dquote ++ Full.obsidianBase ++ "/work"
     ++ dquote ++ " " ++ dquote ++ "nvim " ++ squote ++ Full.obsidianBase
     ++ "/work/2023-11-14_22-13-20.md" ++ squote ++ dquote].
Proof.
  intro w.
  destruct (default_note_name_is_timestamp w
              [("vault", JStr "work"); ("split", JStr "vertical")] "work")
    as [T _].
  - reflexivity.
  - discriminate.
  - reflexivity.
  - vm_compute. split; discriminate.
  - exact T.
Defined.

(** * Further properties of the handlers *)

(** ** What a conversion can throw *)

Lemma join_with_throws (to_s : JValue -> Completion string) (sep : string)
    (items : list JValue) (e e0 : Thrown) :
  (forall x, In x items -> forall e, to_s x = Throw e -> e = e0) ->
  join_with to_s sep items = Throw e -> e = e0.
Proof.
  induction items as [| x rest IH]; intros Hall; [discriminate |].
  assert (Hx : forall e, to_s x = Throw e -> e = e0)
    by (apply Hall; left; reflexivity).
  assert (Hrest : join_with to_s sep rest = Throw e -> e = e0)
    by (apply IH; intros y Hy; apply Hall; right; exact Hy).
  change (join_with to_s sep (x :: rest))
    with (match (match x with
                 | JUndefined | JNull => Normal ""
                 | _ => to_s x
                 end) with
          | Throw e => Throw e
          | Normal s =>
              match rest with
              | [] => Normal s
              | _ :: _ =>
                  match join_with to_s sep rest with
                  | Throw e => Throw e
                  | Normal r => Normal (s ++ sep ++ r)
                  end
              end
          end).
  assert (T : forall c : Completion string,
            (forall e, c = Throw e -> e = e0) ->
            match c with
            | Throw e => Throw e
            | Normal s =>
                match rest with
                | [] => Normal s
                | _ :: _ =>
                    match join_with to_s sep rest with
                    | Throw e => Throw e
                    | Normal r => Normal (s ++ sep ++ r)
                    end
                end
            end = Throw e -> e = e0).
  { intros [s | e1] Hc.
    - destruct rest; [discriminate |].
      destruct (join_with to_s sep (j :: rest)); [discriminate |].
      intro H. apply Hrest. exact H.
    - intro H. injection H as <-. apply Hc. reflexivity. }
  apply T. destruct x; try exact Hx; discriminate.
Qed.

Lemma ToString_throws (v : JValue) (e : Thrown) :
  ToString v = Throw e ->
  e = ErrorInstance ClassTypeError "Cannot convert object to primitive value".
Proof.
  revert v e. fix IH 1. intros v e.
  destruct v as [| | b | n | s | items | props]; simpl;
    try discriminate; try (destruct b; discriminate).
  - apply join_with_throws.
    induction items as [| a l IHl]; intros x Hin; [destruct Hin |].
    destruct Hin as [E | Hin]; [rewrite <- E; exact (IH a) | exact (IHl x Hin)].
  - destruct (has_own props "toString"); [| discriminate].
    unfold TypeError. intro H. injection H as <-. reflexivity.
Qed.

(** ** Rules for preludes, epilogues and shaped handlers *)

Lemma prelude_ret {A} (a : A) : prelude (ret a).
Proof. intros w tr. split; [reflexivity | discriminate]. Qed.

Lemma prelude_lift {A} (c : Completion A) :
  (forall e, c = Throw e -> benign e) -> prelude (lift c).
Proof. intros H w tr. split; [reflexivity | exact H]. Qed.

Lemma prelude_new_Error {A} (m : string) :
  starts_with "Unknown tool: " m = false -> prelude (@new_Error A m).
Proof.
  intros H w tr. split; [reflexivity |].
  intros e E. injection E as <-. exact H.
Qed.

Lemma prelude_prop (args : option JObject) (k : string) : prelude (prop args k).
Proof.
  destruct args; intros w tr; (split; [reflexivity |]); simpl; [discriminate |].
  intros e E. injection E as <-. reflexivity.
Qed.

Lemma prelude_str (v : JValue) : prelude (str v).
Proof.
  apply prelude_lift. intros e E. rewrite (ToString_throws _ _ E). reflexivity.
Qed.

Lemma prelude_new_Date : prelude new_Date.
Proof. intros w tr. split; [reflexivity | discriminate]. Qed.

Lemma prelude_bind {A B} (m : M A) (k : A -> M B) :
  prelude m -> (forall a, prelude (k a)) -> prelude (bind m k).
Proof.
  intros Hm Hk w tr. unfold bind. destruct (Hm w tr) as [S T].
  destruct (m w tr) as [[a | e] tr']; simpl in *; subst.
  - apply Hk.
  - split; [reflexivity |]. intros e0 E. injection E as <-. apply T. reflexivity.
Qed.

Lemma prelude_append_quoted (cmd flag : string) (v : JValue) :
  prelude (append_quoted cmd flag v).
Proof.
  unfold append_quoted. destruct (ToBoolean v).
  - apply prelude_bind; [apply prelude_str | intro; apply prelude_ret].
  - apply prelude_ret.
Qed.

Lemma prelude_append_env (entries : list (string * JValue)) (cmd : string) :
  prelude (append_env cmd entries).
Proof.
  revert cmd. induction entries as [| [key value] rest IH]; intro cmd; simpl.
  - apply prelude_ret.
  - apply prelude_bind; [apply prelude_str | intro; apply IH].
Qed.

Lemma prelude_ObjectEntries (v : JValue) : prelude (lift (ObjectEntries v)).
Proof.
  apply prelude_lift. destruct v; simpl; try discriminate;
    intros e E; injection E as <-; reflexivity.
Qed.

Lemma prelude_call_join (v : JValue) (sep : string) : prelude (call_join v sep).
Proof.
  destruct v; simpl; apply prelude_lift;
    try (intros e E; injection E as <-; reflexivity).
  intros e E.
  rewrite (join_with_throws ToString sep items e _ (fun x _ => ToString_throws x) E).
  reflexivity.
Qed.

Lemma epilogue_ret (t : string) :
  success_text t -> epilogue (ret (text_result t)).
Proof.
  intros H w tr. split; [reflexivity |].
  intros r E. injection E as <-. eauto.
Qed.

Lemma epilogue_bind {A} (m : M A) (k : A -> M CallResult) :
  silent m -> (forall a, epilogue (k a)) -> epilogue (bind m k).
Proof.
  intros Hm Hk w tr. unfold bind. specialize (Hm w tr).
  destruct (m w tr) as [[a | e] tr']; simpl in *; subst.
  - apply Hk.
  - split; [reflexivity | discriminate].
Qed.

Lemma shaped_bind_prelude {A} (m : M A) (k : A -> M CallResult) :
  prelude m -> (forall a, shaped (k a)) -> shaped (bind m k).
Proof.
  intros Hm Hk w tr. unfold bind. destruct (Hm w tr) as [S T].
  destruct (m w tr) as [[a | e] tr']; simpl in *; subst.
  - apply Hk.
  - left. split; [reflexivity |]. exists e. split; [reflexivity | auto].
Qed.

Lemma shaped_bind_exec (c : string) (k : ExecResult -> M CallResult) :
  (forall r, epilogue (k r)) -> shaped (bind (execAsync c) k).
Proof.
  intros Hk w tr. right. exists c. unfold bind, execAsync.
  destruct (shell w c) as [out err | msg]; simpl; [| auto].
  destruct (Hk {| stdout := out; stderr := err |} w (tr ++ [c])%list) as [S T].
  split; assumption.
Qed.

Ltac prelude_tac :=
  cbv beta zeta;
  repeat first
    [ apply prelude_ret | apply prelude_prop | apply prelude_str
    | apply prelude_new_Date | apply prelude_append_quoted
    | apply prelude_append_env | apply prelude_ObjectEntries
    | apply prelude_call_join
    | apply prelude_new_Error; reflexivity
    | apply prelude_bind; [| intro; cbv beta zeta]
    | match goal with
      | |- prelude (if ?b then _ else _) => destruct b
      end ].

Ltac epilogue_tac :=
  cbv beta zeta;
  repeat first
    [ apply epilogue_ret; reflexivity
    | apply epilogue_bind; [solve [silent_tac] | intro; cbv beta zeta]
    | match goal with
      | |- epilogue (if ?b then _ else _) => destruct b
      end ].

Ltac shaped_tac :=
  cbv beta zeta;
  repeat first
    [ apply shaped_bind_exec; intro; solve [epilogue_tac]
    | apply shaped_bind_prelude; [solve [prelude_tac] | intro; cbv beta zeta]
    | match goal with
      | |- shaped (if ?b then _ else _) => destruct b
      end ].

Lemma Full_handlers_shaped (args : option JObject) :
  shaped (Full.splitWindow args) /\ shaped (Full.newWindow args) /\
  shaped Full.listSessions /\ shaped Full.listWindows /\
  shaped (Full.sendKeys args) /\ shaped (Full.openNvim args) /\
  shaped (Full.openObsidianNote args) /\ shaped (Full.claudeMcpAdd args) /\
  shaped Full.claudeMcpList.
Proof.
  unfold_handlers. repeat split; shaped_tac.
Qed.

Lemma Core_handlers_shaped (args : option JObject) :
  shaped (Core.splitWindow args) /\ shaped (Core.newWindow args) /\
  shaped Core.listSessions /\ shaped Core.listWindows /\
  shaped (Core.sendKeys args) /\ shaped (Core.openNvim args).
Proof.
  unfold_handlers. repeat split; shaped_tac.
Qed.

Lemma shaped_handled (body : M CallResult) (w : World) :
  shaped body ->
  handled w
    (run (try_catch body
            (fun error => ret (text_result ("Error: " ++ message_of error)))) w).
Proof.
  intro H. unfold handled, run, try_catch. specialize (H w []).
  destruct (body w []) as [[r | e] tr]; simpl in *.
  - destruct H as [[_ [e [E _]]] | [c [-> S]]]; [discriminate |].
    destruct (shell w c) as [out err | msg] eqn:Sh; [| discriminate].
    destruct (S r eq_refl) as [t [-> St]].
    exists t. split; [reflexivity |]. right. right. exists c, out, err. auto.
  - destruct H as [[-> [e' [E B]]] | [c [-> S]]].
    + injection E as <-. eexists. split; [reflexivity |]. left.
      split; [reflexivity |]. eauto.
    + eexists. split; [reflexivity |]. right.
      destruct (shell w c) as [out err | msg] eqn:Sh.
      * right. exists c, out, err. eauto.
      * left. exists c, msg. injection S as ->. auto.
Qed.

(** Every call of a declared tool is handled, in both versions. *)
Lemma declared_call_handled (w : World) (name : string) (args : option JObject) :
  (In name (map tool_name Full.tools) ->
     handled w (call w Full.handle name args)) /\
  (In name (map tool_name Core.tools) ->
     handled w (call w Core.handle name args)).
Proof.
  destruct (Full_handlers_shaped args) as [F1 [F2 [F3 [F4 [F5 [F6 [F7 [F8 F9]]]]]]]].
  destruct (Core_handlers_shaped args) as [C1 [C2 [C3 [C4 [C5 C6]]]]].
  split; simpl; intro H; decompose [or] H; try contradiction; subst name;
    unfold call, Full.handle, Core.handle; simpl params_name;
    simpl params_arguments; cbn [String.eqb Ascii.eqb Bool.eqb];
    apply shaped_handled; assumption.
Qed.

Lemma unknown_call (w : World) (name : string) (args : option JObject) :
  (~ In name (map tool_name Full.tools) ->
     call w Full.handle name args
     = (Normal (text_result ("Error: Unknown tool: " ++ name)), [])) /\
  (~ In name (map tool_name Core.tools) ->
     call w Core.handle name args
     = (Normal (text_result ("Error: Unknown tool: " ++ name)), [])).
Proof.
  split; intro H; unfold call, run, Full.handle, Core.handle;
    simpl params_name; unfold try_catch; not_declared H; reflexivity.
Qed.

Lemma declared_dec (name : string) (l : list string) : In name l \/ ~ In name l.
Proof. destruct (in_dec string_dec name l); auto. Qed.

Lemma error_text_inj (a b : string) :
  text_result ("Error: " ++ a) = text_result ("Error: " ++ b) -> a = b.
Proof. intro H. injection H as H. exact H. Qed.

(** X1.  In both versions every reply is a single text block, and a reply
    whose text does not begin with [Error: ] is never made up: exactly one
    command line was executed and its subprocess exited normally. *)
Theorem reply_is_one_honest_text_block (w : World) (name : string)
    (args : option JObject) (h : Request -> M CallResult) :
  h = Core.handle \/ h = Full.handle ->
  exists t,
    fst (call w h name args) = Normal (text_result t) /\
    (starts_with "Error: " t = false ->
       exists c out err,
         snd (call w h name args) = [c] /\ shell w c = Exited out err).
Proof.
  intros Hh.
  assert (K : handled w (call w h name args) \/
              call w h name args
              = (Normal (text_result ("Error: Unknown tool: " ++ name)), [])).
  { destruct Hh as [-> | ->].
    - destruct (declared_dec name (map tool_name Core.tools)) as [D | D];
        [left; apply declared_call_handled | right; apply unknown_call]; exact D.
    - destruct (declared_dec name (map tool_name Full.tools)) as [D | D];
        [left; apply declared_call_handled | right; apply unknown_call]; exact D. }
  destruct K as [[t [E K]] | ->].
  - exists t. split; [exact E |]. intro S.
    destruct K as [[_ [msg [-> _]]] | [[c [msg [_ [_ ->]]]] | [c [out [err [T [Sh K]]]]]]];
      try discriminate S.
    exists c, out, err. auto.
  - eexists. split; [reflexivity | discriminate].
Qed.

Lemma reply_is_one_honest_text_block_witness :
  exists c out err,
    snd (call quiet Full.handle "tmux_new_window" (Some [])) = [c] /\
    shell quiet c = Exited out err.
Proof.
  destruct (reply_is_one_honest_text_block quiet "tmux_new_window" (Some [])
              Full.handle (or_intror eq_refl)) as [t [E H]].
  apply H. injection E as <-. reflexivity.
Defined.

(** X2.  In both versions, when the command line a call executes fails,
    the reply is [Error: ] followed by the message of that failure, and
    nothing else. *)
Theorem failed_subprocess_is_reported (w : World) (name : string)
    (args : option JObject) (h : Request -> M CallResult) (c msg : string) :
  h = Core.handle \/ h = Full.handle ->
  In c (snd (call w h name args)) ->
  shell w c = Failed msg ->
  fst (call w h name args) = Normal (text_result ("Error: " ++ msg)).
Proof.
  intros Hh Hin Sh.
  assert (K : handled w (call w h name args) \/
              call w h name args
              = (Normal (text_result ("Error: Unknown tool: " ++ name)), [])).
  { destruct Hh as [-> | ->].
    - destruct (declared_dec name (map tool_name Core.tools)) as [D | D];
        [left; apply declared_call_handled | right; apply unknown_call]; exact D.
    - destruct (declared_dec name (map tool_name Full.tools)) as [D | D];
        [left; apply declared_call_handled | right; apply unknown_call]; exact D. }
  destruct K as [[t [E K]] | K]; [| rewrite K in Hin; destruct Hin].
  rewrite E.
  destruct K as [[T _] | [[c' [msg' [T [Sh' ->]]]] | [c' [out [err [T [Sh' _]]]]]]];
    rewrite T in Hin; simpl in Hin; try contradiction;
    destruct Hin as [<- | []]; congruence.
Qed.

Lemma failed_subprocess_is_reported_witness :
  let w := {| shell := fun _ => Failed "Command failed: no server running";
              clock := 0 |} in
  fst (call w Core.handle "tmux_list_windows" None)
  = Normal (text_result "Error: Command failed: no server running").
Proof.
  intro w.
  apply (failed_subprocess_is_reported w "tmux_list_windows" None Core.handle
           ("tmux list-windows -F " ++ dquote
            ++ "#{window_index}: #{window_name} (#{window_panes} panes)"
            ++ dquote));
    [left; reflexivity | simpl; left; reflexivity | reflexivity].
Defined.

(** X3.  The discovery list and the dispatcher agree: in both versions a
    call is answered [Error: Unknown tool: <name>] with nothing executed if
    and only if the name is not one of the declared tools, whose names are
    pairwise distinct. *)
Theorem declared_tools_are_the_dispatched_ones (w : World) (name : string)
    (args : option JObject) :
  (~ In name (map tool_name Full.tools) <->
   call w Full.handle name args
   = (Normal (text_result ("Error: Unknown tool: " ++ name)), [])) /\
  (~ In name (map tool_name Core.tools) <->
   call w Core.handle name args
   = (Normal (text_result ("Error: Unknown tool: " ++ name)), [])) /\
  NoDup (map tool_name Full.tools) /\ NoDup (map tool_name Core.tools).
Proof.
  assert (N : forall res,
            handled w res ->
            res <> (Normal (text_result ("Error: Unknown tool: " ++ name)), [])).
  { intros res [t [E K]] ->. simpl in *. injection E as E.
    destruct K as [[_ [msg [-> U]]] | [[c [msg [T _]]] | [c [out [err [T _]]]]]];
      try discriminate T.
    injection E as <-. simpl in U. discriminate U. }
  repeat split.
  - apply unknown_call.
  - intros E D. exact (N _ (proj1 (declared_call_handled w name args) D) E).
  - apply unknown_call.
  - intros E D. exact (N _ (proj2 (declared_call_handled w name args) D) E).
  - simpl. repeat constructor; simpl; intuition discriminate.
  - simpl. repeat constructor; simpl; intuition discriminate.
Qed.

(** ** Which fields a call depends on *)

Ltac in_list := simpl; repeat first [left; reflexivity | right].

Ltac split_on_name name :=
  repeat match goal with
  | |- context [(name =? ?s)%string] =>
      destruct (String.eqb_spec name s) as [-> | ?]
  end.

(** X4.  A call reads only the properties declared for its tool: two
    argument mappings that agree on the declared properties get the same
    reply and execute the same command, whatever else they hold. *)
Theorem undeclared_fields_are_ignored (w : World) (name : string)
    (o o' : JObject) :
  (forall k, In k (declared_fields name) -> Get o k = Get o' k) ->
  call w Full.handle name (Some o) = call w Full.handle name (Some o').
Proof.
  intro H. dispatch. split_on_name name; try reflexivity;
    unfold_handlers; exec_steps;
    repeat match goal with
    | |- context [Get o ?k] => rewrite (H k) by in_list
    end; reflexivity.
Qed.

Lemma undeclared_fields_are_ignored_witness :
  call quiet Full.handle "tmux_send_keys"
    (Some [("keys", JStr "ls"); ("color", JStr "red")])
  = call quiet Full.handle "tmux_send_keys"
      (Some [("verbose", JBool true); ("keys", JStr "ls")]).
Proof.
  apply undeclared_fields_are_ignored.
  simpl. intros k H. decompose [or] H; try contradiction; subst k; reflexivity.
Defined.

Lemma falsy_strict_eq (v : JValue) (c : ascii) (s : string) :
  ToBoolean v = false -> strict_eq_string v (String c s) = false.
Proof.
  destruct v as [| | | | t | |]; try reflexivity.
  destruct t; [reflexivity | discriminate].
Qed.

(** X5.  A falsy value (empty string, [null], [false], a zero number) in
    a field that the handler only tests for truthiness counts as an absent
    field: two mappings that agree on the declared properties, but for such
    fields falsy in both, get the same reply and execute the same command. *)
Theorem falsy_fields_count_as_absent (w : World) (name : string)
    (o o' : JObject) :
  (forall k, In k (declared_fields name) ->
     Get o k = Get o' k \/
     (In k (guarded_fields name) /\
      ToBoolean (Get o k) = false /\ ToBoolean (Get o' k) = false)) ->
  call w Full.handle name (Some o) = call w Full.handle name (Some o').
Proof.
  intro H. dispatch. split_on_name name; try reflexivity;
    unfold_handlers; exec_steps;
    repeat match goal with
    | |- context [Get o ?k] =>
        let E := fresh "E" in
        let G := fresh "G" in
        let F := fresh "F" in
        let F' := fresh "F'" in
        destruct (H k ltac:(in_list)) as [E | [G [F F']]];
          [ rewrite E; clear E
          | first
              [ exfalso; simpl in G; clear - G; intuition discriminate
              | rewrite ?(falsy_strict_eq _ _ _ F), ?(falsy_strict_eq _ _ _ F'),
                  ?F, ?F';
                cbv beta iota zeta; clear G F F' ] ]
    end; reflexivity.
Qed.

Lemma falsy_fields_count_as_absent_witness :
  call quiet Full.handle "tmux_new_window"
    (Some [("name", JStr ""); ("command", JStr "htop"); ("directory", JNull)])
  = call quiet Full.handle "tmux_new_window" (Some [("command", JStr "htop")]).
Proof.
  apply falsy_fields_count_as_absent.
  simpl. intros k H. decompose [or] H; try contradiction; subst k;
    first [left; reflexivity | right; repeat split; in_list].
Defined.

(** X6.  The defaults the discovery list declares are the ones the
    handlers apply: for every tool and every property with a declared
    default, a call that omits the property and a call that passes the
    default value (everything else equal) get the same reply and execute
    the same command. *)
Theorem declared_defaults_are_applied (w : World) (t : Tool)
    (p : PropertySchema) (d : JValue) (o o' : JObject) :
  In t Full.tools ->
  In p (properties t) ->
  prop_default p = Some d ->
  Get o (prop_name p) = JUndefined ->
  Get o' (prop_name p) = d ->
  (forall k, k <> prop_name p -> Get o k = Get o' k) ->
  call w Full.handle (tool_name t) (Some o)
  = call w Full.handle (tool_name t) (Some o').
Proof.
  intros Ht Hp Hd Ho Ho' H.
  simpl in Ht. decompose [or] Ht; try contradiction; subst t;
    simpl in Hp; decompose [or] Hp; try contradiction; subst p;
    try discriminate Hd; injection Hd as <-;
    simpl prop_name in *; simpl tool_name;
    dispatch; unfold_handlers; exec_steps;
    rewrite Ho, Ho';
    repeat match goal with
    | |- context [Get o ?k] => rewrite (H k) by discriminate
    end; reflexivity.
Qed.

Lemma declared_defaults_are_applied_witness :
  call quiet Full.handle "tmux_send_keys" (Some [("keys", JStr "ls")])
  = call quiet Full.handle "tmux_send_keys"
      (Some [("keys", JStr "ls"); ("enter", JBool true)]).
Proof.
  apply (declared_defaults_are_applied quiet
           {| tool_name := "tmux_send_keys";
              properties :=
                [ plain "keys" TString; plain "pane" TString;
                  {| prop_name := "enter"; prop_type := TBoolean;
                     prop_enum := []; prop_default := Some (JBool true) |} ];
              required := ["keys"] |}
           {| prop_name := "enter"; prop_type := TBoolean; prop_enum := [];
              prop_default := Some (JBool true) |}
           (JBool true)).
  - simpl. tauto.
  - simpl. tauto.
  - reflexivity.
  - reflexivity.
  - reflexivity.
  - intros k Hk. unfold Get. cbn [own_property].
    destruct ("keys" =? k)%string; [reflexivity |].
    destruct (String.eqb_spec "enter" k) as [E | E]; [| reflexivity].
    exfalso. apply Hk. symmetry. exact E.
Defined.

(** X7.  A register-remote-tool call reads only the endpoint of its
    transport: with transport sse or http the fields command and args are
    never read, and with any other transport the field url is never read. *)
Theorem register_reads_one_endpoint (w : World) (o o' : JObject) :
  (forall k, In k ["name"; "env"; "transport"] -> Get o k = Get o' k) ->
  (if needs_url o
   then Get o "url" = Get o' "url"
   else Get o "command" = Get o' "command" /\ Get o "args" = Get o' "args") ->
  call w Full.handle "claude_mcp_add" (Some o)
  = call w Full.handle "claude_mcp_add" (Some o').
Proof.
  intros H N. unfold needs_url in N.
  dispatch. unfold_handlers. exec_steps.
  rewrite <- !(H "name"), <- !(H "env"), <- !(H "transport") by in_list.
  revert N. cbv beta iota zeta delta [orb].
  destruct (strict_eq_string (Get o "transport") "sse");
    [| destruct (strict_eq_string (Get o "transport") "http")];
    cbv beta iota zeta.
  - intros <-. reflexivity.
  - intros <-. reflexivity.
  - intros [<- <-]. reflexivity.
Qed.

Lemma register_reads_one_endpoint_witness :
  call quiet Full.handle "claude_mcp_add"
    (Some [("name", JStr "api"); ("transport", JStr "http");
           ("url", JStr "https://example.org/mcp"); ("command", JStr "node")])
  = call quiet Full.handle "claude_mcp_add"
      (Some [("name", JStr "api"); ("transport", JStr "http");
             ("url", JStr "https://example.org/mcp");
             ("args", JArr [JStr "--port"])]).
Proof.
  apply register_reads_one_endpoint.
  - simpl. intros k H. decompose [or] H; try contradiction; subst k; reflexivity.
  - reflexivity.
Defined.

(** X8.  Arguments omitted.  In both versions the tools that read a field
    answer a call without [arguments] by an error and execute nothing; every
    other name (the listings, and the unknown ones) gets the same reply
    with and without arguments. *)
Theorem omitted_arguments (w : World) (name : string)
    (h : Request -> M CallResult) :
  h = Core.handle \/ h = Full.handle ->
  (In name field_reading_tools ->
     exists msg,
       call w h name None = (Normal (text_result ("Error: " ++ msg)), [])) /\
  (~ In name field_reading_tools ->
     forall o, call w h name None = call w h name (Some o)).
Proof.
  intro Hh. split.
  - simpl. intro H. decompose [or] H; try contradiction; subst name;
      destruct Hh as [-> | ->]; dispatch; unfold_handlers; exec_steps;
      eexists; reflexivity.
  - intros H o.
    destruct Hh as [-> | ->]; dispatch; split_on_name name; try reflexivity;
      exfalso; apply H; in_list.
Qed.

Lemma omitted_arguments_witness :
  (exists msg,
     call quiet Full.handle "tmux_new_window" None
     = (Normal (text_result ("Error: " ++ msg)), [])) /\
  call quiet Full.handle "claude_mcp_list" None
  = call quiet Full.handle "claude_mcp_list" (Some [("all", JBool true)]).
Proof.
  split.
  - apply (omitted_arguments quiet "tmux_new_window" Full.handle
             (or_intror eq_refl)). in_list.
  - apply (omitted_arguments quiet "claude_mcp_list" Full.handle
             (or_intror eq_refl)). simpl. intuition discriminate.
Defined.

(** X9.  A list-windows call, whatever its arguments, executes the one
    fixed command and replies with [Current session windows:], a newline
    and the standard output of the subprocess, unmodified; a failed
    subprocess gives the error reply.  Both versions. *)
Theorem list_windows_passes_stdout (w : World) (args : option JObject)
    (h : Request -> M CallResult) :
  h = Core.handle \/ h = Full.handle ->
  call w h "tmux_list_windows" args
  = (Normal (passthrough "Current session windows:" (shell w list_windows_cmd)),
     [list_windows_cmd]).
Proof.
  intros [-> | ->]; dispatch; unfold_handlers; fold list_windows_cmd;
    exec_steps; destruct (shell w list_windows_cmd); reflexivity.
Qed.

Lemma list_windows_passes_stdout_witness :
  let w := {| shell := fun _ => Exited ("0: zsh (1 panes)" ++ newline) "";
              clock := 0 |} in
  call w Core.handle "tmux_list_windows" None
  = (Normal (text_result ("Current session windows:" ++ newline
                          ++ "0: zsh (1 panes)" ++ newline)),
     [list_windows_cmd]).
Proof.
  intro w.
  exact (list_windows_passes_stdout w None Core.handle (or_introl eq_refl)).
Defined.

(** X10.  A list-remote-tools call, whatever its arguments, executes
    [claude mcp list] and replies with [Configured MCP servers:], a newline
    and the standard output unmodified; the short version does not know the
    tool. *)
Theorem list_servers_passes_stdout (w : World) (args : option JObject) :
  call w Full.handle "claude_mcp_list" args
  = (Normal (passthrough "Configured MCP servers:" (shell w list_servers_cmd)),
     [list_servers_cmd]) /\
  call w Core.handle "claude_mcp_list" args
  = (Normal (text_result "Error: Unknown tool: claude_mcp_list"), []).
Proof.
  split; [| reflexivity].
  dispatch; unfold_handlers; fold list_servers_cmd; exec_steps;
    destruct (shell w list_servers_cmd); reflexivity.
Qed.

(** ** The editor, the version difference, missing required fields *)

(** X11.  open-editor splits horizontally by default: in both versions
    every command it executes begins [tmux split-window -v] when [split] is
    the string [vertical] and [tmux split-window -h] for every other value
    or none (the opposite default of split-pane).  With strings or nothing
    for the directory and the file, exactly one command is executed; its
    last argument is ["nvim"], or ["nvim "<file>""] with the file quoted
    inside the quoted argument. *)
Theorem open_editor_command (w : World) (o : JObject)
    (h : Request -> M CallResult) :
  h = Core.handle \/ h = Full.handle ->
  let executed := snd (call w h "tmux_open_nvim" (Some o)) in
  (Get o "split" = JStr "vertical" ->
     forall cmd, In cmd executed ->
       exists rest, cmd = "tmux split-window -v" ++ rest) /\
  (Get o "split" <> JStr "vertical" ->
     forall cmd, In cmd executed ->
       exists rest, cmd = "tmux split-window -h" ++ rest) /\
  (optional is_string (Get o "directory") = true ->
   optional is_string (Get o "file") = true ->
     executed
     = [("tmux split-window "
         ++ (if strict_eq_string (Get o "split") "vertical" then "-v" else "-h"))
        ++ quoted_flag " -c " (Get o "directory")
        ++ " " ++ dquote
        ++ (match Get o "file" with
            | JStr f =>
                if (f =? "")%string then "nvim"
                else "nvim " ++ dquote ++ f ++ dquote
            | _ => "nvim"
            end)
        ++ dquote]).
Proof.
  intros Hh executed. subst executed.
  assert (F : Get o "split" <> JStr "vertical" ->
              strict_eq_string (Get o "split") "vertical" = false).
  { destruct (Get o "split") as [| | | | s | |]; try reflexivity.
    intro N. simpl. apply String.eqb_neq. congruence. }
  repeat split.
  - intros D cmd. destruct Hh as [-> | ->]; dispatch; unfold_handlers;
      exec_steps; rewrite D;
      cbn [ToString strict_eq_string String.eqb Ascii.eqb Bool.eqb];
      cases; executed_cases; eexists; reflexivity.
  - intros D cmd. specialize (F D).
    destruct Hh as [-> | ->]; dispatch; unfold_handlers; exec_steps;
      rewrite F; cases; executed_cases; eexists; reflexivity.
  - unfold optional, quoted_flag. intros Hd Hf.
    destruct Hh as [-> | ->]; dispatch; unfold_handlers; exec_steps;
      destruct (Get o "directory"); try discriminate Hd;
      destruct (Get o "file"); try discriminate Hf;
      cbn [ToString ToBoolean]; cbv beta iota zeta delta [negb];
      cases; cbn [app]; rewrite ?append_assoc; reflexivity.
Qed.

Lemma open_editor_command_witness :
  (exists rest, "tmux split-window -v " ++ dquote ++ "nvim" ++ dquote
                = "tmux split-window -v" ++ rest) /\
  (exists rest, "tmux split-window -h " ++ dquote ++ "nvim" ++ dquote
                = "tmux split-window -h" ++ rest) /\
  snd (call quiet Core.handle "tmux_open_nvim" (Some [("file", JStr "a.txt")]))
  = ["tmux split-window -h " ++ dquote ++ "nvim " ++ dquote ++ "a.txt"
     ++ dquote ++ dquote].
Proof.
  split; [| split].
  - destruct (open_editor_command quiet [("split", JStr "vertical")]
                Full.handle (or_intror eq_refl)) as [A _].
    apply A; [reflexivity | simpl; left; reflexivity].
  - destruct (open_editor_command quiet [("split", JStr "diagonal")]
                Full.handle (or_intror eq_refl)) as [_ [B _]].
    apply B; [discriminate | simpl; left; reflexivity].
  - destruct (open_editor_command quiet [("file", JStr "a.txt")]
                Core.handle (or_introl eq_refl)) as [_ [_ C]].
    apply C; reflexivity.
Defined.

(** X16.  The two versions differ on the three added tools only: on every
    other name, declared or not, their dispatchers execute the same
    commands and return the same reply, and the short version answers the
    three added names as unknown tools.  The six descriptors of the short
    version are the first six of the long one. *)
Theorem versions_differ_on_added_tools_only (w : World) (name : string)
    (args : option JObject) :
  (~ In name added_tools ->
     call w Core.handle name args = call w Full.handle name args) /\
  (In name added_tools ->
     call w Core.handle name args
     = (Normal (text_result ("Error: Unknown tool: " ++ name)), [])) /\
  Core.tools = firstn 6 Full.tools.
Proof.
  split; [| split].
  - intro H. dispatch. split_on_name name; try reflexivity;
      exfalso; apply H; in_list.
  - simpl. intro H. decompose [or] H; try contradiction; subst name; reflexivity.
  - reflexivity.
Qed.

Lemma versions_differ_on_added_tools_only_witness :
  call quiet Core.handle "tmux_kill_server" None
  = call quiet Full.handle "tmux_kill_server" None /\
  call quiet Core.handle "claude_mcp_add" (Some [("name", JStr "files")])
  = (Normal (text_result "Error: Unknown tool: claude_mcp_add"), []).
Proof.
  split.
  - apply (proj1 (versions_differ_on_added_tools_only quiet "tmux_kill_server"
                    None)).
    unfold added_tools. simpl. intuition discriminate.
  - apply (proj1 (proj2 (versions_differ_on_added_tools_only quiet
                           "claude_mcp_add" (Some [("name", JStr "files")])))).
    in_list.
Defined.

(** X17.  The required fields are not enforced.  A send-keys call
    without [keys] sends the text [undefined], and a split-pane call
    without [direction] splits vertically and reports
    [Split window undefinedly]. *)
Theorem missing_required_field_reads_undefined (w : World) (o : JObject)
    (h : Request -> M CallResult) :
  h = Core.handle \/ h = Full.handle ->
  (own_property o "keys" = None ->
   optional is_string (Get o "pane") = true ->
     snd (call w h "tmux_send_keys" (Some o))
     = ["tmux send-keys" ++ pane_flag (Get o "pane")
        ++ " " ++ dquote ++ "undefined" ++ dquote
        ++ (match Get o "enter" with JBool false => "" | _ => " Enter" end)]) /\
  (own_property o "direction" = None ->
   optional is_string (Get o "directory") = true ->
   own_property o "command" = None ->
     let cmd := "tmux split-window -v" ++ quoted_flag " -c " (Get o "directory") in
     call w h "tmux_split_window" (Some o)
     = (Normal (match shell w cmd with
                | Exited _ _ => text_result "Split window undefinedly"
                | Failed m => text_result ("Error: " ++ m)
                end), [cmd])).
Proof.
  intro Hh. split.
  - intros K P. unfold optional, pane_flag in *.
    destruct Hh as [-> | ->]; dispatch; unfold_handlers; exec_steps;
      rewrite (absent_is_undefined _ _ K);
      destruct (Get o "pane") as [| | | | pane | |]; try discriminate P;
      cbn [ToString ToBoolean]; cbv beta iota zeta delta [negb];
      destruct (Get o "enter") as [| | [|] | | | |];
      cbn [strict_neq_false];
      cases; cbn [app]; rewrite ?append_assoc; reflexivity.
  - intros D P C cmd. subst cmd. unfold optional, quoted_flag in *.
    destruct Hh as [-> | ->]; dispatch; unfold_handlers; exec_steps;
      rewrite (absent_is_undefined _ _ D), (absent_is_undefined _ _ C);
      destruct (Get o "directory") as [| | | | dir | |]; try discriminate P;
      cbn [ToString ToBoolean strict_eq_string];
      cbv beta iota zeta delta [negb];
      try destruct (dir =? "")%string; cbv beta iota zeta; cbn [append app];
      match goal with
      | |- context [shell w ?c] => destruct (shell w c)
      end; reflexivity.
Qed.

Lemma missing_required_field_reads_undefined_witness :
  snd (call quiet Full.handle "tmux_send_keys" (Some []))
  = ["tmux send-keys " ++ dquote ++ "undefined" ++ dquote ++ " Enter"] /\
  call quiet Core.handle "tmux_split_window" (Some [])
  = (Normal (text_result "Split window undefinedly"), ["tmux split-window -v"]).
Proof.
  split.
  - destruct (missing_required_field_reads_undefined quiet [] Full.handle
                (or_intror eq_refl)) as [A _].
    apply A; reflexivity.
  - destruct (missing_required_field_reads_undefined quiet [] Core.handle
                (or_introl eq_refl)) as [_ B].
    apply B; reflexivity.
Defined.

(** ** The layout of the register-remote-tool command *)

Lemma append_env_entries (es : list (string * string)) (cmd : string)
    (w : World) (tr : list string) :
  append_env cmd (string_entries es) w tr = (Normal (cmd ++ env_flags es), tr).
Proof.
  revert cmd. induction es as [| [k v] rest IH]; intro cmd.
  - simpl. rewrite append_empty_r. reflexivity.
  - simpl string_entries. cbn [append_env]. exec_steps. cbn [ToString].
    cbv beta iota zeta. fold (string_entries rest). rewrite IH.
    cbn [env_flags fold_right fst snd]. fold (env_flags rest).
    rewrite !append_assoc. reflexivity.
Qed.

Lemma join_map_strings (sep : string) (xs : list string) :
  join_with ToString sep (map JStr xs) = Normal (String.concat sep xs).
Proof.
  induction xs as [| x rest IH]; [reflexivity |].
  destruct rest as [| y rest']; [reflexivity |].
  change (join_with ToString sep (map JStr (x :: y :: rest')))
    with (match join_with ToString sep (map JStr (y :: rest')) with
          | Throw e => Throw e
          | Normal r => Normal (x ++ sep ++ r)
          end).
  rewrite IH. reflexivity.
Qed.

(** X12.  The command line of register-remote-tool, for a string name
    and an environment of strings.  With the local transport (omitted,
    falsy or [stdio]) it is [claude mcp add], the [--env KEY=value] flags in
    the order of the environment, the name, the command and the arguments
    joined by spaces: no [--transport] flag.  With sse or http it is
    [claude mcp add --transport <t>], the flags, the name and the url.  The
    reply passes the standard output through and adds the standard error
    only when there is some. *)
Theorem register_command_layout (w : World) (o : JObject) (n : string)
    (es : list (string * string)) :
  Get o "name" = JStr n ->
  Get o "env" = JObj (string_entries es)
  \/ (ToBoolean (Get o "env") = false /\ es = []) ->
  (forall c xs,
     ToBoolean (Get o "transport") = false \/ Get o "transport" = JStr "stdio" ->
     Get o "command" = JStr c -> c <> "" ->
     Get o "args" = JArr (map JStr xs) ->
     let cmd := "claude mcp add" ++ env_flags es ++ " " ++ n ++ " " ++ c
                ++ " " ++ String.concat " " xs in
     call w Full.handle "claude_mcp_add" (Some o)
     = (Normal (added_reply n (shell w cmd)), [cmd])) /\
  (forall t u,
     Get o "transport" = JStr t -> t = "sse" \/ t = "http" ->
     Get o "url" = JStr u -> u <> "" ->
     let cmd := "claude mcp add --transport " ++ t ++ env_flags es ++ " " ++ n
                ++ " " ++ u in
     call w Full.handle "claude_mcp_add" (Some o)
     = (Normal (added_reply n (shell w cmd)), [cmd])).
Proof.
  intros Hn He. split.
  - intros c xs Ht Hc Nc Ha cmd. subst cmd.
    apply String.eqb_neq in Nc.
    dispatch. unfold_handlers. exec_steps.
    rewrite Hn, Hc, Ha.
    cbn [ToString ToBoolean]. rewrite Nc, join_map_strings.
    destruct Ht as [Ht | Ht];
      [ rewrite ?(falsy_strict_eq _ _ _ Ht), Ht
      | rewrite Ht;
        cbn [ToBoolean strict_eq_string String.eqb Ascii.eqb Bool.eqb] ];
      cbv beta iota zeta delta [negb];
      (destruct He as [He | [He ->]];
       [ rewrite He; cbn [ToBoolean ObjectEntries]; cbv beta iota zeta;
         rewrite append_env_entries; cbv beta iota zeta
       | rewrite He; cbv beta iota zeta; cbn [env_flags fold_right] ]);
      rewrite ?append_assoc; cbn [append];
      match goal with
      | |- context [shell w ?c] => destruct (shell w c) as [out err | m]
      end; cbn [added_reply app]; try reflexivity;
      destruct (err =? "")%string; reflexivity.
  - intros t u Ht Hsse Hu Nu cmd. subst cmd.
    apply String.eqb_neq in Nu.
    dispatch. unfold_handlers. exec_steps.
    rewrite Hn, Ht, Hu.
    cbn [ToString ToBoolean strict_eq_string]. rewrite Nu.
    destruct Hsse as [-> | ->];
      cbn [String.eqb Ascii.eqb Bool.eqb]; cbv beta iota zeta delta [negb];
      (destruct He as [He | [He ->]];
       [ rewrite He; cbn [ToBoolean ObjectEntries]; cbv beta iota zeta;
         rewrite append_env_entries; cbv beta iota zeta
       | rewrite He; cbv beta iota zeta; cbn [env_flags fold_right] ]);
      rewrite ?append_assoc; cbn [append];
      match goal with
      | |- context [shell w ?c] => destruct (shell w c) as [out err | m]
      end; cbn [added_reply app]; try reflexivity;
      destruct (err =? "")%string; reflexivity.
Qed.

Lemma register_command_layout_witness :
  snd (call quiet Full.handle "claude_mcp_add"
         (Some [("name", JStr "files");
                ("env", JObj [("ROOT", JStr "/srv"); ("MODE", JStr "ro")]);
                ("command", JStr "npx"); ("args", JArr [JStr "-y"; JStr "fs"])]))
  = ["claude mcp add --env ROOT=/srv --env MODE=ro files npx -y fs"] /\
  call {| shell := fun _ => Exited "ok" "deprecated"; clock := 0 |} Full.handle
    "claude_mcp_add"
    (Some [("name", JStr "api"); ("transport", JStr "sse");
           ("url", JStr "https://example.org/sse")])
  = (Normal (text_result ("Added MCP server " ++ dquote ++ "api" ++ dquote
                          ++ newline ++ "ok" ++ newline
                          ++ "Errors: deprecated")),
     ["claude mcp add --transport sse api https://example.org/sse"]).
Proof.
  split.
  - destruct (register_command_layout quiet
                [("name", JStr "files");
                 ("env", JObj [("ROOT", JStr "/srv"); ("MODE", JStr "ro")]);
                 ("command", JStr "npx"); ("args", JArr [JStr "-y"; JStr "fs"])]
                "files" [("ROOT", "/srv"); ("MODE", "ro")] eq_refl
                (or_introl eq_refl)) as [A _].
    exact (f_equal snd (A "npx" ["-y"; "fs"] (or_introl eq_refl) eq_refl
                          ltac:(discriminate) eq_refl)).
  - destruct (register_command_layout
                {| shell := fun _ => Exited "ok" "deprecated"; clock := 0 |}
                [("name", JStr "api"); ("transport", JStr "sse");
                 ("url", JStr "https://example.org/sse")]
                "api" [] eq_refl (or_intror (conj eq_refl eq_refl))) as [_ B].
    exact (B "sse" "https://example.org/sse" eq_refl (or_introl eq_refl)
             eq_refl ltac:(discriminate)).
Defined.

(** ** The characters of the default note name *)

Lemma digit_is_name_char (d : Z) : name_char (digit_char d) = true.
Proof. unfold name_char. rewrite digit_char_is_digit. reflexivity. Qed.

(** X13.  For every time value the default note name is 22 characters
    long, ends in [.md], and holds only decimal digits and the characters
    [-], [+], [_], [.], [m], [d]: no colon, slash, space or quote, so that
    it cannot end the quoting of the command line it is put in. *)
Theorem default_note_name_characters (t : Z) :
  String.length (timestamp_name t) = 22 /\
  all_chars name_char (timestamp_name t) = true /\
  (exists stem, timestamp_name t = stem ++ ".md") /\
  contains ":" (timestamp_name t) = false /\
  contains "/" (timestamp_name t) = false /\
  contains " " (timestamp_name t) = false /\
  contains squote (timestamp_name t) = false /\
  contains dquote (timestamp_name t) = false.
Proof.
  assert (C : forall s c, all_chars name_char s = true -> name_char c = false ->
              contains (String c "") s = false).
  { induction s as [| x s IH]; intros c A N; [reflexivity |].
    simpl in A. apply andb_prop in A as [Ax As].
    cbn [contains starts_with]. rewrite (IH c As N).
    destruct (Ascii.eqb_spec c x) as [-> | _]; [congruence | reflexivity]. }
  assert (K : String.length (timestamp_name t) = 22 /\
              all_chars name_char (timestamp_name t) = true).
  { unfold timestamp_name, toISOString, iso_year.
    generalize (YearFromTime t) (MonthFromTime t + 1)%Z (DateFromTime t)
      (HourFromTime t) (MinFromTime t) (SecFromTime t) (msFromTime t).
    intros y mo d hh mi ss ms.
    destruct ((0 <=? y)%Z && (y <=? 9999)%Z); [| destruct (y <? 0)%Z];
      cbn [fixed_decimal append slice0 substring];
      cbn [replace_first];
      rewrite ?(digit_char_not _ "T") by reflexivity;
      cbn [replace_first Ascii.eqb Bool.eqb replace_all append];
      rewrite ?(digit_char_not _ ":") by reflexivity;
      (split; [reflexivity |]);
      cbn [all_chars]; rewrite ?digit_is_name_char; reflexivity. }
  destruct K as [L A].
  repeat split; try (apply C; [exact A | reflexivity]); try exact L; try exact A.
  unfold timestamp_name. eexists. reflexivity.
Qed.

(** ** Reading the clock *)

Lemma clock_free_ret {A} (a : A) : clock_free (ret a).
Proof. intros sh c1 c2 tr. reflexivity. Qed.

Lemma clock_free_lift {A} (c : Completion A) : clock_free (lift c).
Proof. intros sh c1 c2 tr. reflexivity. Qed.

Lemma clock_free_new_Error {A} (m : string) : clock_free (@new_Error A m).
Proof. intros sh c1 c2 tr. reflexivity. Qed.

Lemma clock_free_prop (args : option JObject) (k : string) :
  clock_free (prop args k).
Proof. destruct args; intros sh c1 c2 tr; reflexivity. Qed.

Lemma clock_free_str (v : JValue) : clock_free (str v).
Proof. intros sh c1 c2 tr. reflexivity. Qed.

Lemma clock_free_execAsync (cmd : string) : clock_free (execAsync cmd).
Proof. intros sh c1 c2 tr. reflexivity. Qed.

Lemma clock_free_bind {A B} (m : M A) (k : A -> M B) :
  clock_free m -> (forall a, clock_free (k a)) -> clock_free (bind m k).
Proof.
  intros Hm Hk sh c1 c2 tr. unfold bind. rewrite (Hm sh c1 c2 tr).
  destruct (m _ tr) as [[a | e] tr']; [apply Hk | reflexivity].
Qed.

Lemma clock_free_try_catch {A} (m : M A) (h : Thrown -> M A) :
  clock_free m -> (forall e, clock_free (h e)) -> clock_free (try_catch m h).
Proof.
  intros Hm Hh sh c1 c2 tr. unfold try_catch. rewrite (Hm sh c1 c2 tr).
  destruct (m _ tr) as [[a | e] tr']; [reflexivity | apply Hh].
Qed.

Lemma clock_free_append_quoted (cmd flag : string) (v : JValue) :
  clock_free (append_quoted cmd flag v).
Proof.
  unfold append_quoted. destruct (ToBoolean v).
  - apply clock_free_bind; [apply clock_free_str | intro; apply clock_free_ret].
  - apply clock_free_ret.
Qed.

Lemma clock_free_append_env (entries : list (string * JValue)) (cmd : string) :
  clock_free (append_env cmd entries).
Proof.
  revert cmd. induction entries as [| [key value] rest IH]; intro cmd; simpl.
  - apply clock_free_ret.
  - apply clock_free_bind; [apply clock_free_str | intro; apply IH].
Qed.

Lemma clock_free_call_join (v : JValue) (sep : string) :
  clock_free (call_join v sep).
Proof. destruct v; apply clock_free_lift. Qed.

Ltac clock_free_tac :=
  cbv beta zeta;
  repeat first
    [ apply clock_free_ret | apply clock_free_lift | apply clock_free_new_Error
    | apply clock_free_prop | apply clock_free_str | apply clock_free_execAsync
    | apply clock_free_append_quoted | apply clock_free_append_env
    | apply clock_free_call_join
    | apply clock_free_bind; [| intro; cbv beta zeta]
    | apply clock_free_try_catch; [| intro; cbv beta zeta]
    | match goal with
      | |- clock_free (if ?b then _ else _) => destruct b
      end ].

(** X14.  Only the default note name reads the clock: for every tool
    name and arguments, the reply and the executed command do not depend on
    the current time, unless the call is an open-note-in-vault call with a
    truthy vault and no truthy note_name. *)
Theorem only_the_default_note_name_reads_the_clock
    (sh : string -> ExecOutcome) (c1 c2 : Z) (name : string)
    (args : option JObject) :
  (forall o, name = "tmux_open_obsidian_note" -> args = Some o ->
     ToBoolean (Get o "vault") = false \/
     ToBoolean (Get o "note_name") = true) ->
  call {| shell := sh; clock := c1 |} Full.handle name args
  = call {| shell := sh; clock := c2 |} Full.handle name args.
Proof.
  intro H. unfold call, run.
  assert (F : clock_free
                (Full.handle {| params_name := name; params_arguments := args |}));
    [| apply F].
  unfold Full.handle. cbv beta iota zeta delta [params_name params_arguments].
  apply clock_free_try_catch; [| intro; apply clock_free_ret].
  split_on_name name; try (unfold_handlers; solve [clock_free_tac]).
  unfold Full.openObsidianNote.
  destruct args as [o |]; [| clock_free_tac].
  specialize (H o eq_refl eq_refl).
  intros s k1 k2 tr. exec_steps.
  destruct (ToBoolean (Get o "vault")); cbv beta iota zeta; [| reflexivity].
  destruct H as [H | H]; [discriminate H |]. rewrite H. reflexivity.
Qed.

Lemma only_the_default_note_name_reads_the_clock_witness :
  call {| shell := fun _ => Exited "" ""; clock := 0 |} Full.handle
    "tmux_open_obsidian_note"
    (Some [("vault", JStr "work"); ("note_name", JStr "todo.md")])
  = call {| shell := fun _ => Exited "" ""; clock := 1700000000123 |}
      Full.handle "tmux_open_obsidian_note"
      (Some [("vault", JStr "work"); ("note_name", JStr "todo.md")]).
Proof.
  apply only_the_default_note_name_reads_the_clock.
  intros o _ E. injection E as <-. right. reflexivity.
Defined.

(** X15.  A note name the caller gives is used as it is: with non-empty
    strings for vault and note_name, open-note-in-vault executes one split
    command that starts in the vault directory and opens
    [<vault directory>/<note_name>] in the editor, with no extension added,
    and reports that name. *)
Theorem given_note_name_is_used_verbatim (w : World) (o : JObject)
    (vault noteName : string) :
  Get o "vault" = JStr vault -> vault <> "" ->
  Get o "note_name" = JStr noteName -> noteName <> "" ->
  let vaultPath := Full.obsidianBase ++ "/" ++ vault in
  let cmd :=
    "tmux split-window "
    ++ (if strict_eq_string (Get o "split") "vertical" then "-v" else "-h")
    ++ " -c " ++ dquote ++ vaultPath ++ dquote ++ " " ++ dquote ++ "nvim "
    ++ squote ++ (vaultPath ++ "/" ++ noteName) ++ squote ++ dquote in
  call w Full.handle "tmux_open_obsidian_note" (Some o)
  = (Normal (opened_note_reply noteName vault (shell w cmd)), [cmd]).
Proof.
  intros V NV N NN vaultPath cmd. subst vaultPath cmd.
  apply String.eqb_neq in NV. apply String.eqb_neq in NN.
  dispatch. unfold_handlers. exec_steps. rewrite V, N.
  cbn [ToString ToBoolean]. rewrite NV, NN. cbv beta iota zeta delta [negb].
  destruct (strict_eq_string (Get o "split") "vertical"); cbv beta iota zeta;
    match goal with
    | |- context [shell w ?c] => destruct (shell w c)
    end; reflexivity.
Qed.

Lemma given_note_name_is_used_verbatim_witness :
  call quiet Full.handle "tmux_open_obsidian_note"
    (Some [("vault", JStr "work"); ("note_name", JStr "todo")])
  = (Normal (text_result ("Opened new Obsidian note " ++ dquote ++ "todo"
                          ++ dquote ++ " in vault " ++ dquote ++ "work"
                          ++ dquote)),
     ["tmux split-window -h -c " ++ dquote ++ Full.obsidianBase ++ "/work"
      ++ dquote ++ " " ++ dquote ++ "nvim " ++ squote ++ Full.obsidianBase
      ++ "/work/todo" ++ squote ++ dquote]).
Proof.
  exact (given_note_name_is_used_verbatim quiet
           [("vault", JStr "work"); ("note_name", JStr "todo")] "work" "todo"
           eq_refl ltac:(discriminate) eq_refl ltac:(discriminate)).
Defined.

(** ** The new-window command *)

(** X18.  new-window, with strings or nothing for its fields: in both
    versions the call executes [tmux new-window] followed, for each
    non-empty field and in this order, by [-n "<name>"], [-c "<directory>"]
    and ["<command>"]; after a normal exit the reply is
    [Created new window], with the quoted name when there is one. *)
Theorem new_window_command (w : World) (o : JObject)
    (h : Request -> M CallResult) :
  h = Core.handle \/ h = Full.handle ->
  optional is_string (Get o "name") = true ->
  optional is_string (Get o "directory") = true ->
  optional is_string (Get o "command") = true ->
  let cmd := "tmux new-window" ++ quoted_flag " -n " (Get o "name")
             ++ quoted_flag " -c " (Get o "directory")
             ++ quoted_flag " " (Get o "command") in
  call w h "tmux_new_window" (Some o)
  = (Normal
       (match shell w cmd with
        | Exited _ _ =>
            text_result
              ("Created new window"
               ++ match Get o "name" with
                  | JStr n =>
                      if (n =? "")%string then ""
                      else " " ++ squote ++ n ++ squote
                  | _ => ""
                  end)
        | Failed m => text_result ("Error: " ++ m)
        end), [cmd]).
Proof.
  intros Hh Hn Hd Hc cmd. subst cmd. unfold optional, quoted_flag in *.
  destruct Hh as [-> | ->]; dispatch; unfold_handlers; exec_steps;
    destruct (Get o "name") as [| | | | n | |]; try discriminate Hn;
    destruct (Get o "directory") as [| | | | d | |]; try discriminate Hd;
    destruct (Get o "command") as [| | | | c | |]; try discriminate Hc;
    cbn [ToString ToBoolean]; cbv beta iota zeta delta [negb];
    repeat match goal with
    | |- context [(?s =? "")%string] => destruct (s =? "")%string
    end; cbv beta iota zeta;
    repeat (progress (cbn [append app]; rewrite ?append_assoc, ?append_empty_r));
    match goal with
    | |- context [shell w ?c] => destruct (shell w c)
    end; reflexivity.
Qed.

Lemma new_window_command_witness :
  call quiet Full.handle "tmux_new_window"
    (Some [("name", JStr "logs"); ("command", JStr "htop")])
  = (Normal (text_result ("Created new window " ++ squote ++ "logs" ++ squote)),
     ["tmux new-window -n " ++ dquote ++ "logs" ++ dquote ++ " " ++ dquote
      ++ "htop" ++ dquote]).
Proof.
  exact (new_window_command quiet
           [("name", JStr "logs"); ("command", JStr "htop")] Full.handle
           (or_intror eq_refl) eq_refl eq_refl eq_refl).
Defined.
